(** * arxiv-collector: the dependency classifier and the comment stripper

    A shallow embedding of [arxiv_collector.py]: the text helpers the script
    takes from Python's [str], the fragment of [re] its three patterns use,
    [strip_comment], [target], [read_until] and [collect].

    Text is a list of characters (code points below 256).  The external world
    [collect] talks to is given as data: the text the build tool writes on
    its standard output (decoded), its return code, the return code of the
    clean-up run, and a file system seen through the four queries the script
    makes.  What [collect] does is the list, in order, of the calls it makes
    on the archive [out_tar] it is handed and of the clean-up run; the calls
    on [out_tar] are taken to return.  [print] is left out.

    [target] loops for ever on a cycle of links: the embedding gives it a
    number of links it may follow, and a run that needs more [Hangs].

    The embedding follows Python 3: [str] is text on both sides of every
    comparison the script makes. *)

From Stdlib Require Import Ascii String Bool Arith ZArith Lia List.
Import ListNotations.
Local Open Scope list_scope.

(** ** Text *)

Module Text.

Definition text := list ascii.

(** A string literal as text. *)
Definition txt (s : string) : text := list_ascii_of_string s.

Definition nl : ascii := "010"%char.
Definition percent : ascii := "%"%char.
Definition backslash : ascii := "\"%char.
Definition slash : ascii := "/"%char.

Fixpoint text_eqb (a b : text) : bool :=
  match a, b with
  | [], [] => true
  | x :: a', y :: b' => Ascii.eqb x y && text_eqb a' b'
  | _, _ => false
  end.

(** [s.startswith(p)]. *)
Fixpoint startswith (s p : text) : bool :=
  match p, s with
  | [], _ => true
  | c :: p', x :: s' => Ascii.eqb x c && startswith s' p'
  | _ :: _, [] => false
  end.

(** [s.endswith(suf)]: [suf] is no longer than [s] and equals its tail. *)
Definition endswith (s suf : text) : bool :=
  (length suf <=? length s) && text_eqb (skipn (length s - length suf) s) suf.

(** [s[:-n]]. *)
Definition drop_last (n : nat) (s : text) : text := firstn (length s - n) s.

(** [str.isspace] on the code points below 256. *)
Definition isspace (c : ascii) : bool :=
  let n := nat_of_ascii c in
  ((9 <=? n) && (n <=? 13)) || ((28 <=? n) && (n <=? 32)) || (n =? 133) || (n =? 160).

Fixpoint lstrip (s : text) : text :=
  match s with
  | c :: s' => if isspace c then lstrip s' else s
  | [] => []
  end.

Definition rstrip (s : text) : text := rev (lstrip (rev s)).

(** [s.strip()]. *)
Definition strip (s : text) : text := rstrip (lstrip s).

(** The lines of a text, each with its newline, the last one possibly without:
    what iterating a text file yields, and what successive [readline()] calls
    return before the empty string of the end of the stream. *)
Fixpoint lines_of (s : text) : list text :=
  match s with
  | [] => []
  | c :: s' =>
      if Ascii.eqb c nl then [c] :: lines_of s'
      else match lines_of s' with
           | [] => [[c]]
           | l :: ls => (c :: l) :: ls
           end
  end.

(** [os.path.basename]: what follows the last slash. *)
Fixpoint basename (p : text) : text :=
  match p with
  | [] => []
  | _ :: p' => if existsb (Ascii.eqb slash) p then basename p' else p
  end.

(** [a in s] for texts: [a] occurs in [s] as a contiguous run. *)
Fixpoint contains (s a : text) : bool :=
  startswith s a || match s with [] => false | _ :: s' => contains s' a end.

Definition count_nl (s : text) : nat := count_occ ascii_dec s nl.

End Text.
Import Text.

(** ** The fragment of Python's [re] the script uses *)

Module Re.

(** Patterns.  [NotChr c] is the class [[^c]] (it matches a newline too),
    [DotStar] is a greedy [.*] without DOTALL, [Grp] is capturing group 1,
    and [r?] is [Alt r Emp]. *)
Inductive re : Type :=
| Emp
| Bol
| Chr (c : ascii)
| NotChr (c : ascii)
| DotStar
| Cat (r1 r2 : re)
| Alt (r1 r2 : re)
| Grp (r : re).

Section Matcher.
Context {A : Type}.

(** Greedy [.*]: take every character up to the next newline, and give
    characters back one at a time while the rest of the pattern fails. *)
Fixpoint dot_star (b : bool) (s : text) (k : bool -> text -> option A) : option A :=
  match s with
  | c :: s' =>
      if Ascii.eqb c nl then k b s
      else match dot_star false s' k with
           | Some x => Some x
           | None => k b s
           end
  | [] => k b s
  end.

(** A backtracking matcher in continuation-passing style.  [b] says that the
    current position is the start of the subject, [s] is the subject from
    the current position on, [g] is what group 1 holds so far. *)
Fixpoint run (r : re) (b : bool) (s : text) (g : option text)
         (k : bool -> text -> option text -> option A) : option A :=
  match r with
  | Emp => k b s g
  | Bol => if b then k b s g else None
  | Chr c =>
      match s with
      | x :: s' => if Ascii.eqb x c then k false s' g else None
      | [] => None
      end
  | NotChr c =>
      match s with
      | x :: s' => if Ascii.eqb x c then None else k false s' g
      | [] => None
      end
  | DotStar => dot_star b s (fun b' s' => k b' s' g)
  | Cat r1 r2 => run r1 b s g (fun b' s' g' => run r2 b' s' g' k)
  | Alt r1 r2 =>
      match run r1 b s g k with
      | Some x => Some x
      | None => run r2 b s g k
      end
  | Grp r1 =>
      run r1 b s g
          (fun b' s' _ => k b' s' (Some (firstn (length s - length s') s)))
  end.
End Matcher.

(** A match that starts at the current position: what is left of the subject
    after it, and group 1. *)
Definition match_at (r : re) (b : bool) (s : text) : option (text * option text) :=
  run r b s None (fun _ s' g => Some (s', g)).

(** [pattern.match(s)] as a truth value. *)
Definition matches (r : re) (s : text) : bool :=
  match match_at r true s with Some _ => true | None => false end.

Fixpoint search_from (r : re) (b : bool) (s : text) : bool :=
  match match_at r b s with
  | Some _ => true
  | None => match s with [] => false | _ :: s' => search_from r false s' end
  end.

(** [pattern.search(s)] as a truth value. *)
Definition search (r : re) (s : text) : bool := search_from r true s.

(** Replacement templates: [\1] and literal characters. *)
Inductive titem : Type := TGroup1 | TChr (c : ascii).

Definition expand (tpl : list titem) (g : option text) : text :=
  flat_map (fun it => match it with
                      | TGroup1 => match g with Some x => x | None => [] end
                      | TChr c => [c]
                      end) tpl.

(** [pattern.sub(tpl, s)]: the subject is scanned from left to right; where
    the pattern matches, the expanded template is written and the scan goes on
    after the match ([skip] counts the characters of the match still to pass);
    elsewhere one character is copied. *)
Fixpoint sub_from (r : re) (tpl : list titem) (b : bool) (skip : nat) (s : text) : text :=
  match skip with
  | S k => match s with
           | _ :: s' => sub_from r tpl false k s'
           | [] => []
           end
  | O =>
      match match_at r b s with
      | Some (rest, g) =>
          expand tpl g ++
          match s with
          | [] => []
          | c :: s' =>
              match length s - length rest with
              | O => c :: sub_from r tpl false 0 s'
              | S k => sub_from r tpl false k s'
              end
          end
      | None =>
          match s with
          | [] => []
          | c :: s' => c :: sub_from r tpl false 0 s'
          end
      end
  end.

Definition sub (r : re) (tpl : list titem) (s : text) : text := sub_from r tpl true 0 s.

(** A literal run of characters. *)
Definition lit (s : text) : re := fold_right (fun c r => Cat (Chr c) r) Emp s.

(** Pattern sources built by the script out of escaped text and bars: a
    character that stands for itself, or the alternation bar. *)
Inductive tok : Type := TLit (c : ascii) | TBar.

(** [re.escape(p)]: every character of [p] stands for itself. *)
Definition escape (p : text) : list tok := map TLit p.

(** ['|'.join(ps)]. *)
Fixpoint join_bar (ps : list (list tok)) : list tok :=
  match ps with
  | [] => []
  | [p] => p
  | p :: rest => p ++ TBar :: join_bar rest
  end.

(** The branches of a source without parentheses: the bar binds weakest, so
    the source splits at every bar. *)
Fixpoint branches (ts : list tok) : list text :=
  match ts with
  | [] => [[]]
  | TBar :: ts' => [] :: branches ts'
  | TLit c :: ts' =>
      match branches ts' with
      | a :: rest => (c :: a) :: rest
      | [] => [[c]]
      end
  end.

Fixpoint alt_of (rs : list re) : re :=
  match rs with
  | [] => Emp
  | [r] => r
  | r :: rest => Alt r (alt_of rest)
  end.

(** [re.compile] of such a source. *)
Definition compile (ts : list tok) : re := alt_of (map lit (branches ts)).

End Re.
Import Re.

(** ** [strip_comment] *)

(** [(^|[^\\])%.*] *)
Definition strip_re : re :=
  Cat (Grp (Alt Bol (NotChr backslash))) (Cat (Chr percent) DotStar).

(** [\1%] *)
Definition strip_tpl : list titem := [TGroup1; TChr percent].

(** [strip_comment = partial(re.compile(r'(^|[^\\])%.*').sub, r'\1%')] *)
Definition strip_comment (line : text) : text := sub strip_re strip_tpl line.

(** ** The collector *)

Module Collector.

(** The file system as the script queries it. *)
Record filesys : Type := {
  islink : text -> bool;             (* os.path.islink *)
  readlink : text -> text;           (* os.readlink *)
  path_exists : text -> bool;        (* os.path.exists *)
  read_text : text -> option text    (* the text io.open(p) iterates over; None when the open fails *)
}.

(** What the script is asked to do. *)
Record config : Type := {
  base_name : text;
  packages : list text;
  strip_comments : bool
}.

(** What the outside world answers during one run: the file system, all the
    text latexmk writes on its standard output, its return code, the return
    code of [latexmk -C], and how many links [target] may follow before the
    run counts as not returning. *)
Record world : Type := {
  fs : filesys;
  stdout : text;
  returncode : Z;
  clean_returncode : Z;
  link_fuel : nat
}.

Inductive exn : Type :=
| UnexpectedEOF                    (* ValueError("Unexpected EOF") *)
| AssertionError
| IOError
| CalledProcessError (code : Z).

(** How a run ends. *)
Inductive outcome : Type :=
| Returned
| SysExit (code : Z)
| Raised (e : exn)
| Hangs.

(** What a run does, in order: calls on [out_tar], and the clean-up run. *)
Inductive event : Type :=
| Add (name arcname : text)                        (* out_tar.add(name, arcname=arcname) *)
| AddFile (name : text) (size : nat) (data : list Byte.byte)
                                                   (* out_tar.addfile(tarinfo=info, fileobj=g) *)
| Clean.                                           (* subprocess.check_call(['latexmk', '-C', base_name]) *)

(** [target]: follow links until the name is no link. *)
Fixpoint target (f : filesys) (fuel : nat) (fname : text) : option text :=
  match fuel with
  | O => None
  | S n => if islink f fname then target f n (readlink f fname) else Some fname
  end.

(** [s.encode('utf-8')] on the code points below 256. *)
Definition utf8_char (c : ascii) : list Byte.byte :=
  let n := N_of_ascii c in
  if (n <? 128)%N then [byte_of_ascii c]
  else [byte_of_ascii (ascii_of_N (192 + n / 64)); byte_of_ascii (ascii_of_N (128 + n mod 64))].

Definition encode_utf8 (s : text) : list Byte.byte := flat_map utf8_char s.

(** [next_line]: the next line of the stream, the empty string at its end. *)
Definition next_line (pending : list text) : text * list text :=
  match pending with
  | [] => ([], [])
  | line :: rest => (line, rest)
  end.

(** A generator run to its end: the lines it yields, then how it stops
    (returning, with the lines of the stream it has not read, or raising). *)
Inductive gen : Type :=
| Yield (line : text) (rest : gen)
| Return (unread : list text)
| Raise (e : exn).

(** [read_until(check)] over the lines still to come. *)
Fixpoint read_until (check : text -> bool) (pending : list text) : gen :=
  match pending with
  | [] => Raise UnexpectedEOF
  | line :: rest =>
      if text_eqb line [] then Raise UnexpectedEOF
      else if check line then Return rest
      else Yield line (read_until check rest)
  end.

(** [consume(iterator)]. *)
Fixpoint consume (g : gen) : exn + list text :=
  match g with
  | Yield _ rest => consume rest
  | Return unread => inr unread
  | Raise e => inl e
  end.

(** The lines a generator yields, and how it stops. *)
Fixpoint yielded (g : gen) : list text :=
  match g with
  | Yield line rest => line :: yielded rest
  | _ => []
  end.

(** ['#===Dependents(, and related info,)? for {}:\n'.format(base_name)],
    compiled.  The script splices the base name into the source unescaped
    (unlike the package names, which go through [re.escape]).  [start_re]
    reads the name as literal text: that is what [re.compile] makes of the
    source for a name without pattern metacharacters, and for such names
    only.  For another name the compiled pattern differs, or [re.compile]
    raises; the embedding does not cover those names, and every statement
    below that rests on the start marker being found or missed asks for a
    base name without metacharacters ([plain_name]). *)
Definition start_re (base : text) : re :=
  Cat (lit (txt "#===Dependents"))
      (Cat (Alt (Grp (lit (txt ", and related info,"))) Emp)
           (lit (txt " for " ++ base ++ txt ":" ++ [nl]))).

(** ['{}.pdf :\\'.format(base_name)] *)
Definition header_line (base : text) : text := base ++ txt ".pdf :\".

(** ['#===End dependents for {}:\n'.format(base_name)] *)
Definition end_line (base : text) : text :=
  txt "#===End dependents for " ++ base ++ txt ":" ++ [nl].

(** ['/' + '|'.join(re.escape(p) for p in packages) + '/'], compiled. *)
Definition pkg_source (pkgs : list text) : list tok :=
  TLit slash :: join_bar (map escape pkgs) ++ [TLit slash].

Definition pkg_re (pkgs : list text) : re := compile (pkg_source pkgs).

(** The path on a dependency line: the line stripped, without one final
    backslash. *)
Definition dep_of_line (line : text) : text :=
  let dep := strip line in
  if endswith dep [backslash] then drop_last 1 dep else dep.

(** What the body of the loop does for one dependency. *)
Inductive action : Type :=
| Emit (evs : list event)
| Abort (o : outcome).

(** [out_tar.add(target(name), arcname=arcname)] *)
Definition add_resolved (f : filesys) (fuel : nat) (name arcname : text) : action :=
  match target f fuel name with
  | Some t => Emit [Add t arcname]
  | None => Abort Hangs
  end.

(** The stripped copy of a [.tex] file written to the buffer [g]. *)
Definition stripped_bytes (content : text) : list Byte.byte :=
  flat_map (fun line => encode_utf8 (strip_comment line)) (lines_of content).

Definition classify (c : config) (f : filesys) (fuel : nat) (dep : text) : action :=
  if startswith dep [slash] then
    if search (pkg_re (packages c)) dep
    then add_resolved f fuel dep (basename dep)
    else Emit []
  else if endswith dep (txt ".tex") && strip_comments c then
    match read_text f dep with
    | Some content =>
        let g := stripped_bytes content in
        Emit [AddFile dep (length g) g]
    | None => Abort (Raised IOError)
    end
  else if endswith dep (txt ".eps") then
    let base := drop_last 4 dep in
    let pdf := base ++ txt "-eps-converted-to.pdf" in
    if path_exists f pdf
    then add_resolved f fuel pdf (base ++ txt ".pdf")
    else Abort (Raised AssertionError)
  else if endswith dep (txt "-eps-converted-to.pdf") then Emit []
  else if endswith dep (txt ".bib") then Emit []
  else add_resolved f fuel dep dep.

(** [for line in g: body(line)], after the events [done]: the events so far,
    and either how the run ends inside the loop or the lines left unread. *)
Fixpoint for_each (body : text -> action) (g : gen) (done : list event)
  : list event * (outcome + list text) :=
  match g with
  | Yield line rest =>
      match body line with
      | Emit evs => for_each body rest (done ++ evs)
      | Abort o => (done, inl o)
      end
  | Return unread => (done, inr unread)
  | Raise e => (done, inl (Raised e))
  end.

(** What follows the loop: the rest of the output is drained, the process is
    waited for, and its return code decides. *)
Definition finish (c : config) (w : world) (evs : list event) : list event * outcome :=
  if Z.eqb (returncode w) 0 then
    (evs ++ [Add (base_name c ++ txt ".bbl") (base_name c ++ txt ".bbl")], Returned)
  else if Z.eqb (clean_returncode w) 0 then
    (evs ++ [Clean], SysExit (returncode w))
  else
    (evs ++ [Clean], Raised (CalledProcessError (clean_returncode w))).

(** [collect(out_tar, base_name, packages, strip_comments)] *)
Definition collect (c : config) (w : world) : list event * outcome :=
  match consume (read_until (matches (start_re (base_name c))) (lines_of (stdout w))) with
  | inl e => ([], Raised e)
  | inr unread =>
      let (header, unread') := next_line unread in
      if text_eqb (strip header) (header_line (base_name c)) then
        match for_each (fun line => classify c (fs w) (link_fuel w) (dep_of_line line))
                       (read_until (text_eqb (end_line (base_name c))) unread') [] with
        | (evs, inl o) => (evs, o)
        | (evs, inr _) => finish c w evs
        end
      else ([], Raised AssertionError)
  end.

End Collector.
Import Collector.

(** ** [main], up to the call of [collect] *)

Module Main.

(** The parsed command line. *)
Record args : Type := {
  arg_base_name : option text;      (* args.base_name, None when it is not given *)
  arg_packages : list text;         (* args.packages *)
  arg_skip_biblatex : bool;
  arg_dest : text;
  arg_strip_comments : bool
}.

(** The calls of [parser.error]. *)
Inductive usage : Type :=
| CannotGuess                       (* "Can't guess your filename; pass BASE_NAME." *)
| DotInName                         (* "BASE_NAME (...) shouldn't contain '.'" *)
| SlashInName.                      (* "cd into the directory first" *)

(** [x in l] *)
Definition mem (x : text) (l : list text) : bool := existsb (text_eqb x) l.

(** [list(set(cands) & {'main', 'paper'})], in one of its orders. *)
Definition main_or_paper (cands : list text) : list text :=
  filter (fun x => mem x cands) [txt "main"; txt "paper"].

(** The guess of the base name from [found], the result of [glob('*.tex')]. *)
Definition guess (found : list text) : usage + text :=
  let cands := map (drop_last 4) found in
  let cands := if 1 <? length cands then main_or_paper cands else cands in
  match cands with
  | [c] => inr c
  | _ => inl CannotGuess
  end.

(** [l.remove(x)]: without the first [x]; [None] is the [ValueError] raised
    when there is none. *)
Fixpoint remove_first (x : text) (l : list text) : option (list text) :=
  match l with
  | [] => None
  | y :: l' =>
      if text_eqb y x then Some l'
      else match remove_first x l' with
           | Some r => Some (y :: r)
           | None => None
           end
  end.

(** How [main] gets to [collect]: not at all, or with a configuration and the
    name of the archive to open. *)
Inductive prepared : Type :=
| Usage (u : usage)
| RemoveFails
| Ready (c : config) (dest : text).

Definition prepare (a : args) (found : list text) : prepared :=
  let named :=
    match arg_base_name a with
    | Some (c :: s) => inr (c :: s)
    | _ => guess found
    end in
  match named with
  | inl u => Usage u
  | inr name =>
      let name := if endswith name (txt ".tex") then drop_last 4 name else name in
      if existsb (Ascii.eqb "."%char) name then Usage DotInName
      else if existsb (Ascii.eqb slash) name then Usage SlashInName
      else
        match (if arg_skip_biblatex a
               then remove_first (txt "biblatex") (arg_packages a)
               else Some (arg_packages a)) with
        | None => RemoveFails
        | Some pkgs =>
            Ready {| base_name := name; packages := pkgs;
                     strip_comments := arg_strip_comments a |} (arg_dest a)
        end
  end.

End Main.
Import Main.

(** ** Vocabulary of the statements *)

(** What [.*] leaves: the text from the next newline on. *)
Fixpoint to_eol (s : text) : text :=
  match s with
  | c :: s' => if Ascii.eqb c nl then s else to_eol s'
  | [] => []
  end.

(** Whether a match of [strip_re] starts at a character [c] followed by
    [next], and then what group 1 holds: nothing when the percent sign opens
    the subject, the character before the percent sign otherwise. *)
Definition opens (b : bool) (c : ascii) (next : option ascii) : option text :=
  if b && Ascii.eqb c percent then Some []
  else if Ascii.eqb c backslash then None
  else match next with
       | Some d => if Ascii.eqb d percent then Some [c] else None
       | None => None
       end.

(** The scan of [strip_comment] from a position on. *)
Definition scan (b : bool) (s : text) : text := sub_from strip_re strip_tpl b 0 s.

(** No percent sign of [s] starts a comment: each one follows a backslash
    ([escaped] says so for the first character). *)
Fixpoint comment_free_after (escaped : bool) (s : text) : bool :=
  match s with
  | [] => true
  | c :: s' =>
      if Ascii.eqb c percent then escaped && comment_free_after false s'
      else comment_free_after (Ascii.eqb c backslash) s'
  end.

Definition comment_free (s : text) : bool := comment_free_after false s.

(** No percent sign of [s] starts a comment for TeX: each one is escaped,
    that is, follows an odd number of backslashes in a row ([odd] says that
    an odd number of them comes just before [s]).  After [\\], an escaped
    backslash, a percent sign is not escaped. *)
Fixpoint tex_comment_free_after (odd : bool) (s : text) : bool :=
  match s with
  | [] => true
  | c :: s' =>
      if Ascii.eqb c percent then odd && tex_comment_free_after false s'
      else if Ascii.eqb c backslash then tex_comment_free_after (negb odd) s'
      else tex_comment_free_after false s'
  end.

Definition tex_comment_free (s : text) : bool := tex_comment_free_after false s.

(** The characters that have a meaning of their own in a pattern. *)
Definition is_meta (c : ascii) : bool :=
  existsb (Ascii.eqb c) (txt ".^$*+?{}[]\|()").

(** A base name without pattern metacharacters: spliced into the source of
    a pattern, it stands for itself, and [start_re] is what [re.compile]
    makes of the source. *)
Definition plain_name (base : text) : bool := negb (existsb is_meta base).

Definition no_nl (s : text) : bool := negb (existsb (Ascii.eqb nl) s).

(** The text whose encoding [collect] writes for a [.tex] file: every line
    of the file through [strip_comment]. *)
Definition strip_text (content : text) : text :=
  concat (map strip_comment (lines_of content)).

(** The newline bytes of what is written to the archive. *)
Definition count_nl_bytes (d : list Byte.byte) : nat :=
  count_occ Byte.byte_eq_dec d Byte.x0a.

(** The loop body of [collect] on a line of the dependency block. *)
Definition on_line (c : config) (w : world) (line : text) : action :=
  classify c (fs w) (link_fuel w) (dep_of_line line).

(** The call that ends a successful run: [out_tar.add('<base_name>.bbl')]. *)
Definition bbl_entry (c : config) : event :=
  Add (base_name c ++ txt ".bbl") (base_name c ++ txt ".bbl").

(** The companion of an [.eps] dependency and the name it is archived under. *)
Definition eps_companion (dep : text) : text :=
  drop_last 4 dep ++ txt "-eps-converted-to.pdf".

Definition eps_arcname (dep : text) : text := drop_last 4 dep ++ txt ".pdf".

(** A generator that yields [ys] and then stops as [stop] says. *)
Definition yields_then (ys : list text) (stop : gen) : gen := fold_right Yield stop ys.

(** ** A sample project *)

Definition default_config : config :=
  {| base_name := txt "main"; packages := [txt "biblatex"]; strip_comments := true |}.

Definition two_package_config : config :=
  {| base_name := txt "main"; packages := [txt "biblatex"; txt "natbib"];
     strip_comments := true |}.

(** No links; of the converted figures only [figures/plot] is there; the one
    readable source is [main.tex]. *)
Definition sample_fs : filesys :=
  {| islink := fun _ => false;
     readlink := fun p => p;
     path_exists := fun p => text_eqb p (txt "figures/plot-eps-converted-to.pdf");
     read_text := fun p =>
       if text_eqb p (txt "main.tex")
       then Some (txt "a%b" ++ [nl] ++ txt "50\% x % y" ++ [nl] ++ txt "end")
       else None |}.

Definition sample_preamble : list text := [txt "Latexmk: All targets are up-to-date" ++ [nl]].

Definition sample_start : text := txt "#===Dependents, and related info, for main:" ++ [nl].

Definition sample_header : text := txt "main.pdf :\" ++ [nl].

Definition sample_deps : list text :=
  [ txt "    /usr/share/texmf/tex/latex/biblatex/biblatex.sty\" ++ [nl];
    txt "    /usr/share/texmf/tex/latex/base/article.cls\" ++ [nl];
    txt "    main.tex\" ++ [nl];
    txt "    figures/plot.eps\" ++ [nl];
    txt "    figures/plot-eps-converted-to.pdf\" ++ [nl];
    txt "    refs.bib" ++ [nl] ].

Definition sample_events : list (list event) :=
  [ [Add (txt "/usr/share/texmf/tex/latex/biblatex/biblatex.sty") (txt "biblatex.sty")];
    [];
    [AddFile (txt "main.tex") 15
       (map byte_of_ascii (txt "a%" ++ [nl] ++ txt "50\% x %" ++ [nl] ++ txt "end"))];
    [Add (txt "figures/plot-eps-converted-to.pdf") (txt "figures/plot.pdf")];
    [];
    [] ].

Definition sample_trailer : list text := [txt "Latexmk: done" ++ [nl]].

Definition sample_stdout : text :=
  concat (sample_preamble ++ sample_start :: sample_header :: sample_deps
          ++ end_line (txt "main") :: sample_trailer).

Definition sample_world (rc : Z) : world :=
  {| fs := sample_fs; stdout := sample_stdout; returncode := rc;
     clean_returncode := 0; link_fuel := 8 |}.

(** A build that wrote nothing and returned 12. *)
Definition silent_failure : world :=
  {| fs := sample_fs; stdout := []; returncode := 12; clean_returncode := 0;
     link_fuel := 8 |}.

(** Dependency lines under a directory of the default package. *)
Definition packaged_bib_line : text :=
  txt "    /usr/share/texmf/bibtex/bib/biblatex/biblatex-examples.bib\" ++ [nl].

Definition packaged_pdf_line : text :=
  txt "    /usr/share/texmf/tex/latex/biblatex/logo-eps-converted-to.pdf\" ++ [nl].

Definition packaged_eps_line : text :=
  txt "    /usr/share/texmf/tex/latex/biblatex/logo.eps\" ++ [nl].

(** A dependency line under the directory of another package, whose name
    starts like the default one's. *)
Definition chicago_line : text :=
  txt "    /usr/share/texmf/tex/latex/biblatex-chicago/cms.cbx\" ++ [nl].

(** Whether a pattern matches at a position. *)
Definition hit (r : re) (b : bool) (s : text) : bool :=
  match match_at r b s with Some _ => true | None => false end.

(** The name an event gives its archive entry. *)
Definition arcname_of (e : event) : option text :=
  match e with
  | Add _ arcname => Some arcname
  | AddFile name _ _ => Some name
  | Clean => None
  end.

(** Whether an event makes an archive entry whose name ends in [suf]. *)
Definition named_like (suf : text) (e : event) : bool :=
  match arcname_of e with
  | Some a => endswith a suf
  | None => false
  end.

(** A link to itself, among files that are no links. *)
Definition looping_fs (p : text) : filesys :=
  {| islink := fun q => text_eqb q p;
     readlink := fun q => q;
     path_exists := fun _ => false;
     read_text := fun _ => None |}.

(** [a.tex -> b.tex -> c.tex], the last a plain file. *)
Definition chained_fs : filesys :=
  {| islink := fun q => text_eqb q (txt "a.tex") || text_eqb q (txt "b.tex");
     readlink := fun q => if text_eqb q (txt "a.tex") then txt "b.tex" else txt "c.tex";
     path_exists := fun _ => true;
     read_text := fun _ => None |}.

(** A command line that names nothing but the defaults. *)
Definition bare_args : args :=
  {| arg_base_name := None; arg_packages := [txt "biblatex"];
     arg_skip_biblatex := false; arg_dest := txt "arxiv.tar.gz";
     arg_strip_comments := true |}.

Definition named_args (name : text) : args :=
  {| arg_base_name := Some name; arg_packages := [txt "biblatex"];
     arg_skip_biblatex := false; arg_dest := txt "arxiv.tar.gz";
     arg_strip_comments := true |}.

Definition skipping_args : args :=
  {| arg_base_name := Some (txt "main"); arg_packages := [txt "biblatex"];
     arg_skip_biblatex := true; arg_dest := txt "arxiv.tar.gz";
     arg_strip_comments := true |}.

(** Whether a text starts with white space. *)
Definition leading_space (s : text) : bool :=
  match s with
  | c :: _ => isspace c
  | [] => false
  end.

(** Whether an event makes no archive entry with a slash in its name. *)
Definition flat (e : event) : bool :=
  match arcname_of e with
  | Some a => negb (existsb (Ascii.eqb slash) a)
  | None => true
  end.

(** Whether an event makes no archive entry named like an [.eps] or a [.bib]
    file. *)
Definition no_raw_source (e : event) : bool :=
  negb (named_like (txt ".eps") e) && negb (named_like (txt ".bib") e).

(** The command line [a] with [name] given as base name. *)
Definition with_base_name (a : args) (name : text) : args :=
  {| arg_base_name := Some name; arg_packages := arg_packages a;
     arg_skip_biblatex := arg_skip_biblatex a; arg_dest := arg_dest a;
     arg_strip_comments := arg_strip_comments a |}.

(** What [main] does once it has a base name. *)
Definition checked (a : args) (name : text) : prepared :=
  let name := if endswith name (txt ".tex") then drop_last 4 name else name in
  if existsb (Ascii.eqb "."%char) name then Usage DotInName
  else if existsb (Ascii.eqb slash) name then Usage SlashInName
  else
    match (if arg_skip_biblatex a
           then remove_first (txt "biblatex") (arg_packages a)
           else Some (arg_packages a)) with
    | None => RemoveFails
    | Some pkgs =>
        Ready {| base_name := name; packages := pkgs;
                 strip_comments := arg_strip_comments a |} (arg_dest a)
    end.

(** Variants of the sample run. *)
Definition world_of (out : text) (rc clean : Z) : world :=
  {| fs := sample_fs; stdout := out; returncode := rc; clean_returncode := clean;
     link_fuel := 8 |}.

(** The output stops after the start marker. *)
Definition headless_stdout : text := concat (sample_preamble ++ [sample_start]).

(** The output stops before the end marker. *)
Definition truncated_stdout : text :=
  concat (sample_preamble ++ sample_start :: sample_header :: sample_deps).

(** A figure without its converted companion, after three good lines. *)
Definition early_deps : list text := firstn 3 sample_deps.

Definition early_events : list (list event) := firstn 3 sample_events.

Definition missing_eps_line : text := txt "    figures/missing.eps\" ++ [nl].

Definition late_lines : list text :=
  (txt "    refs.bib" ++ [nl]) :: end_line (txt "main") :: sample_trailer.

Definition broken_stdout : text :=
  concat (sample_preamble ++ sample_start :: sample_header :: early_deps
          ++ missing_eps_line :: late_lines).

(** Tactics for the sample run: every line of a given list fails a check;
    the end marker is none of the given lines; every line of a given list is
    classified as stated. *)
Ltac sample_lines :=
  let l := fresh "l" in let H := fresh "H" in
  intros l H; vm_compute in H;
  repeat (destruct H as [H|H]; [subst l; reflexivity|]); destruct H.

Ltac sample_no_end_line :=
  let H := fresh "H" in
  intros H; vm_compute in H;
  repeat (destruct H as [H|H]; [discriminate H|]); destruct H.

Ltac sample_classified :=
  repeat (constructor; [vm_compute; reflexivity|]); constructor.

(** ** The pattern of [strip_comment] *)

Section StripPattern.

Lemma dot_star_final (A : Type) (f : text -> A) (s : text) (b : bool) :
  dot_star b s (fun _ s' => Some (f s')) = Some (f (to_eol s)).
Proof.
  revert b; induction s as [|c s IH]; intros b; simpl; [reflexivity|].
  destruct (Ascii.eqb c nl); [reflexivity|].
  now rewrite IH.
Qed.

Lemma match_at_strip_re (b : bool) (s : text) :
  match_at strip_re b s =
  match s with
  | [] => None
  | c :: t =>
      match opens b c (hd_error t) with
      | Some g => Some (to_eol (skipn (length g) t), Some g)
      | None => None
      end
  end.
Proof.
  unfold match_at, strip_re, opens.
  destruct s as [|c t]; [destruct b; reflexivity|].
  destruct (Ascii.eqb c percent) eqn:Ec.
  - (* the character is a percent sign, hence no backslash *)
    assert (Eb : Ascii.eqb c backslash = false).
    { apply Ascii.eqb_eq in Ec. subst c. reflexivity. }
    destruct b; cbn -[Nat.sub]; rewrite ?Ec, ?Eb.
    + rewrite Nat.sub_diag.
      now rewrite (dot_star_final _ (fun s' => (s', Some (@nil ascii)))).
    + destruct t as [|d t']; [reflexivity|].
      cbn -[Nat.sub]. destruct (Ascii.eqb d percent); [|reflexivity].
      replace (S (S (length t')) - S (length t')) with 1 by lia.
      now rewrite (dot_star_final _ (fun s' => (s', Some [c]))).
  - rewrite andb_false_r.
    destruct (Ascii.eqb c backslash) eqn:Eb.
    + destruct b; cbn -[Nat.sub]; rewrite ?Ec, ?Eb; reflexivity.
    + destruct t as [|d t'].
      * destruct b; cbn -[Nat.sub]; rewrite ?Ec, ?Eb; reflexivity.
      * cbn [hd_error]. destruct (Ascii.eqb d percent) eqn:Ed.
        -- destruct b; cbn -[Nat.sub]; rewrite ?Ec, ?Eb, ?Ed;
             replace (S (S (length t')) - S (length t')) with 1 by lia;
             now rewrite (dot_star_final _ (fun s' => (s', Some [c]))).
        -- destruct b; cbn -[Nat.sub]; rewrite ?Ec, ?Eb, ?Ed; reflexivity.
Qed.

End StripPattern.

(** ** The scan of [sub] over [strip_re] *)

Section Scan.

Lemma to_eol_split (s : text) :
  exists p, s = p ++ to_eol s /\ no_nl p = true.
Proof.
  induction s as [|c s (p & Hp & Hn)]; simpl.
  - exists []; split; reflexivity.
  - destruct (Ascii.eqb c nl) eqn:E.
    + exists []; split; reflexivity.
    + exists (c :: p); split; [simpl; congruence|].
      unfold no_nl in *; cbn [existsb]. rewrite Ascii.eqb_sym, E. exact Hn.
Qed.

Lemma skipn_split (n : nat) (s : text) : exists p, s = p ++ skipn n s.
Proof. exists (firstn n s). symmetry; apply firstn_skipn. Qed.

Lemma skipn_tail (p u : text) : skipn (length (p ++ u) - length u) (p ++ u) = u.
Proof.
  rewrite length_app. replace (length p + length u - length u) with (length p) by lia.
  rewrite skipn_app, Nat.sub_diag, skipn_all. reflexivity.
Qed.

Lemma sub_from_skip (r : re) (tpl : list titem) (k : nat) (s : text) :
  k <= length s -> sub_from r tpl false k s = sub_from r tpl false 0 (skipn k s).
Proof.
  revert s; induction k as [|k IH]; intros s Hk; [reflexivity|].
  destruct s as [|c s]; simpl in Hk; [lia|].
  cbn [sub_from skipn]. apply IH. lia.
Qed.

Lemma scan_nil (b : bool) : scan b [] = [].
Proof. unfold scan; cbn [sub_from]. rewrite match_at_strip_re. reflexivity. Qed.

(** One step of the scan: at a match, group 1 and a percent sign are written
    and the scan resumes at the next newline; elsewhere the character is
    copied. *)
Lemma scan_cons (b : bool) (c : ascii) (t : text) :
  scan b (c :: t) =
  match opens b c (hd_error t) with
  | Some g => g ++ percent :: scan false (to_eol (skipn (length g) t))
  | None => c :: scan false t
  end.
Proof.
  unfold scan; cbn [sub_from]. rewrite match_at_strip_re.
  destruct (opens b c (hd_error t)) as [g|]; [|reflexivity].
  set (rest := to_eol (skipn (length g) t)).
  assert (Hsuf : exists p, t = p ++ rest).
  { destruct (skipn_split (length g) t) as (p1 & H1).
    destruct (to_eol_split (skipn (length g) t)) as (p2 & H2 & _).
    exists (p1 ++ p2). rewrite <- app_assoc. fold rest in H2. now rewrite <- H2. }
  destruct Hsuf as (p & Hp).
  assert (Hlen : length (c :: t) - length rest = S (length t - length rest)).
  { rewrite Hp. cbn [length]. rewrite length_app. lia. }
  rewrite Hlen.
  rewrite sub_from_skip by lia.
  assert (Hskip : skipn (length t - length rest) t = rest).
  { rewrite Hp at 1 2. apply skipn_tail. }
  rewrite Hskip. unfold strip_tpl, expand. cbn [flat_map].
  rewrite app_nil_r, <- app_assoc. reflexivity.
Qed.

Lemma opens_not_percent (b : bool) (c : ascii) (next : option ascii) :
  Ascii.eqb c percent = false -> opens b c next = opens false c next.
Proof. intros E. unfold opens. now rewrite E, andb_false_r. Qed.

Lemma scan_start (c : ascii) (t : text) :
  Ascii.eqb c percent = false -> scan true (c :: t) = scan false (c :: t).
Proof. intros E. rewrite !scan_cons. now rewrite (opens_not_percent true c _ E). Qed.

(** The scan keeps the first character of its subject. *)
Lemma scan_head (b : bool) (s : text) : hd_error (scan b s) = hd_error s.
Proof.
  destruct s as [|c t]; [now rewrite scan_nil|].
  rewrite scan_cons. unfold opens.
  destruct (b && Ascii.eqb c percent) eqn:E1.
  - apply andb_prop in E1 as [_ E]. apply Ascii.eqb_eq in E. subst c. reflexivity.
  - destruct (Ascii.eqb c backslash); [reflexivity|].
    destruct (hd_error t) as [d|]; [|reflexivity].
    destruct (Ascii.eqb d percent); reflexivity.
Qed.

Lemma to_eol_fixed (s : text) :
  match hd_error s with Some c => Ascii.eqb c nl = true | None => True end ->
  to_eol s = s.
Proof. destruct s as [|c s]; simpl; [reflexivity|]. now intros ->. Qed.

Lemma to_eol_head (s : text) :
  match hd_error (to_eol s) with Some c => Ascii.eqb c nl = true | None => True end.
Proof.
  induction s as [|c s IH]; simpl; [exact I|].
  destruct (Ascii.eqb c nl) eqn:E; [exact E|exact IH].
Qed.

Lemma to_eol_length (s : text) : length (to_eol s) <= length s.
Proof.
  induction s as [|c s IH]; simpl; [lia|].
  destruct (Ascii.eqb c nl); simpl; lia.
Qed.

End Scan.

(** ** Properties of [strip_comment] *)

Section StripComment.

Lemma opens_some (b : bool) (c : ascii) (next : option ascii) (g : text) :
  opens b c next = Some g ->
  (g = [] /\ b = true /\ c = percent) \/
  (g = [c] /\ next = Some percent /\ Ascii.eqb c backslash = false /\
   b && Ascii.eqb c percent = false).
Proof.
  unfold opens. destruct (b && Ascii.eqb c percent) eqn:E1.
  - intros [= <-]. apply andb_prop in E1 as [-> E]. apply Ascii.eqb_eq in E. now left.
  - destruct (Ascii.eqb c backslash) eqn:E2; [discriminate|].
    destruct next as [d|]; [|discriminate].
    destruct (Ascii.eqb d percent) eqn:E3; [|discriminate].
    intros [= <-]. apply Ascii.eqb_eq in E3. subst d. right. repeat split.
Qed.

Lemma opens_second (b : bool) (c : ascii) :
  Ascii.eqb c backslash = false -> b && Ascii.eqb c percent = false ->
  opens b c (Some percent) = Some [c].
Proof. intros E2 E1. unfold opens. now rewrite E1, E2. Qed.

Lemma scan_idempotent_upto (n : nat) :
  forall (s : text) (b : bool), length s <= n -> scan b (scan b s) = scan b s.
Proof.
  induction n as [|n IH]; intros s b Hn.
  - destruct s; [|simpl in Hn; lia]. now rewrite !scan_nil.
  - destruct s as [|c t]; [now rewrite !scan_nil|].
    simpl in Hn. rewrite scan_cons.
    destruct (opens b c (hd_error t)) as [g|] eqn:Ho.
    + set (rest := to_eol (skipn (length g) t)).
      assert (Hrest : length rest <= n).
      { unfold rest. pose proof (to_eol_length (skipn (length g) t)).
        rewrite length_skipn in H. lia. }
      assert (Hfix : to_eol (scan false rest) = scan false rest).
      { apply to_eol_fixed. rewrite scan_head. apply to_eol_head. }
      destruct (opens_some _ _ _ _ Ho) as [(-> & -> & ->)|(-> & _ & E2 & E1)].
      * cbn [app]. rewrite scan_cons. unfold opens at 1. cbn [andb Ascii.eqb].
        replace (Ascii.eqb percent percent) with true by reflexivity.
        cbn [length skipn app]. rewrite Hfix, (IH rest false Hrest). reflexivity.
      * cbn [app]. rewrite scan_cons. cbn [hd_error].
        rewrite (opens_second b c E2 E1).
        cbn [length skipn app]. rewrite Hfix, (IH rest false Hrest). reflexivity.
    + rewrite scan_cons, scan_head, Ho.
      rewrite (IH t false) by lia. reflexivity.
Qed.

Lemma scan_no_percent (s : text) (b : bool) :
  existsb (Ascii.eqb percent) s = false -> scan b s = s.
Proof.
  revert b; induction s as [|c t IH]; intros b H; [apply scan_nil|].
  cbn [existsb] in H. apply orb_false_elim in H as [Hc Ht].
  rewrite Ascii.eqb_sym in Hc.
  rewrite scan_cons, (opens_not_percent b c _ Hc). unfold opens. cbn [andb].
  destruct (Ascii.eqb c backslash).
  - now rewrite IH.
  - destruct t as [|d t']; cbn [hd_error]; [now rewrite IH|].
    cbn [existsb] in Ht. apply orb_false_elim in Ht as [Hd Ht'].
    rewrite Ascii.eqb_sym in Hd. rewrite Hd.
    rewrite IH; [reflexivity|]. cbn [existsb]. now rewrite Ascii.eqb_sym, Hd.
Qed.

Lemma no_nl_cons (c : ascii) (s : text) :
  no_nl (c :: s) = negb (Ascii.eqb c nl) && no_nl s.
Proof. unfold no_nl. cbn [existsb]. now rewrite negb_orb, Ascii.eqb_sym. Qed.

Lemma no_nl_app (a b : text) : no_nl (a ++ b) = no_nl a && no_nl b.
Proof. unfold no_nl. now rewrite existsb_app, negb_orb. Qed.

Lemma to_eol_no_nl (s t : text) : no_nl s = true -> to_eol (s ++ t) = to_eol t.
Proof.
  induction s as [|c s IH]; [reflexivity|].
  rewrite no_nl_cons. intros H. apply andb_prop in H as [Hc Hs].
  cbn [app to_eol]. apply negb_true_iff in Hc. rewrite Hc. auto.
Qed.

Lemma comment_free_tail (esc : bool) (c : ascii) (s : text) :
  comment_free_after esc (c :: s) = true ->
  comment_free_after (Ascii.eqb c backslash) s = true.
Proof.
  cbn [comment_free_after]. destruct (Ascii.eqb c percent) eqn:E.
  - apply Ascii.eqb_eq in E. subst c. intros H. now apply andb_prop in H.
  - trivial.
Qed.

Lemma comment_free_head (d : ascii) (s : text) :
  comment_free_after false (d :: s) = true -> Ascii.eqb d percent = false.
Proof. cbn [comment_free_after]. destruct (Ascii.eqb d percent); [discriminate|reflexivity]. Qed.

Lemma endswith_one (c x : ascii) : endswith [c] [x] = Ascii.eqb c x.
Proof. unfold endswith. cbn. now rewrite andb_true_r. Qed.

Lemma endswith_one_cons (c d x : ascii) (p : text) :
  endswith (c :: d :: p) [x] = endswith (d :: p) [x].
Proof.
  unfold endswith. cbn [length].
  replace (S (S (length p)) - 1) with (S (length p)) by lia.
  replace (S (length p) - 1) with (length p) by lia.
  reflexivity.
Qed.

Lemma to_eol_none (s : text) : no_nl s = true -> to_eol s = [].
Proof. intros H. rewrite <- (app_nil_r s). now rewrite to_eol_no_nl. Qed.

Lemma scan_eol (eol : text) : eol = [] \/ eol = [nl] -> scan false eol = eol.
Proof. intros [->| ->]; apply scan_no_percent; reflexivity. Qed.

Lemma to_eol_eol (rest eol : text) :
  no_nl rest = true -> eol = [] \/ eol = [nl] -> to_eol (rest ++ eol) = eol.
Proof. intros Hr He. rewrite to_eol_no_nl by exact Hr. now destruct He as [->| ->]. Qed.

(** Past the start of the subject: up to the first percent sign that follows
    no backslash the text is copied, from it to the end of the line only the
    percent sign is left. *)
Lemma scan_false_prefix (rest eol : text) :
  no_nl rest = true -> eol = [] \/ eol = [nl] ->
  forall (pre : text) (esc : bool),
    comment_free_after esc pre = true -> pre <> [] ->
    endswith pre [backslash] = false ->
    scan false (pre ++ percent :: rest ++ eol) = pre ++ percent :: eol.
Proof.
  intros Hr He. induction pre as [|c pre IH]; intros esc Hcf Hne Hend; [congruence|].
  destruct pre as [|d pre'].
  - rewrite endswith_one in Hend. cbn [app]. rewrite scan_cons. cbn [hd_error].
    rewrite (opens_second false c Hend eq_refl). cbn [length skipn app].
    now rewrite (to_eol_eol _ _ Hr He), (scan_eol _ He).
  - rewrite endswith_one_cons in Hend.
    pose proof (comment_free_tail _ _ _ Hcf) as Htl.
    cbn [app]. rewrite scan_cons. cbn [hd_error].
    assert (Ho : opens false c (Some d) = None).
    { unfold opens. cbn [andb]. destruct (Ascii.eqb c backslash) eqn:E; [reflexivity|].
      now rewrite (comment_free_head _ _ Htl). }
    rewrite Ho. f_equal. apply (IH _ Htl); [discriminate|exact Hend].
Qed.

Lemma opens_snoc_nl (b : bool) (c : ascii) (t : text) :
  opens b c (hd_error (t ++ [nl])) = opens b c (hd_error t).
Proof. destruct t; reflexivity. Qed.

Lemma no_nl_skipn (n : nat) (s : text) : no_nl s = true -> no_nl (skipn n s) = true.
Proof.
  intros H. rewrite <- (firstn_skipn n s), no_nl_app in H. now apply andb_prop in H.
Qed.

(** On a line, the scan leaves the newline where it is and adds none. *)
Lemma scan_line (l : text) :
  no_nl l = true ->
  forall b, scan b (l ++ [nl]) = scan b l ++ [nl] /\ no_nl (scan b l) = true.
Proof.
  induction l as [|c t IH]; intros Hl b.
  - cbn [app]. rewrite scan_nil. split; [|reflexivity].
    apply scan_no_percent. reflexivity.
  - rewrite no_nl_cons in Hl. apply andb_prop in Hl as [Hc Ht].
    cbn [app]. rewrite !scan_cons, opens_snoc_nl.
    destruct (opens b c (hd_error t)) as [g|] eqn:Ho.
    + assert (Hg : length g <= length t /\ no_nl g = true).
      { destruct (opens_some _ _ _ _ Ho) as [(-> & _)|(-> & Hn & _)].
        - split; [cbn; lia|reflexivity].
        - destruct t; [discriminate|]. split; [cbn; lia|].
          rewrite no_nl_cons, Hc. reflexivity. }
      destruct Hg as [Hlen Hgn].
      rewrite skipn_app. replace (length g - length t) with 0 by lia.
      cbn [skipn]. pose proof (no_nl_skipn (length g) t Ht) as Hs.
      rewrite (to_eol_no_nl _ [nl] Hs), (to_eol_none _ Hs). cbn [to_eol].
      replace (Ascii.eqb nl nl) with true by reflexivity.
      rewrite scan_nil, (scan_eol [nl]) by now right.
      split; [now rewrite <- app_assoc|].
      rewrite no_nl_app, Hgn. reflexivity.
    + destruct (IH Ht false) as [E N]. rewrite E. split; [reflexivity|].
      rewrite no_nl_cons, Hc, N. reflexivity.
Qed.

Lemma lines_of_line (l t : text) :
  no_nl l = true -> lines_of (l ++ nl :: t) = (l ++ [nl]) :: lines_of t.
Proof.
  induction l as [|c l IH]; intros Hl.
  - reflexivity.
  - rewrite no_nl_cons in Hl. apply andb_prop in Hl as [Hc Hl].
    apply negb_true_iff in Hc. cbn [app lines_of]. rewrite Hc, (IH Hl). reflexivity.
Qed.

Lemma lines_of_last (l : text) :
  no_nl l = true -> l <> [] -> lines_of l = [l].
Proof.
  induction l as [|c l IH]; intros Hl Hne; [congruence|].
  rewrite no_nl_cons in Hl. apply andb_prop in Hl as [Hc Hl].
  apply negb_true_iff in Hc. cbn [lines_of]. rewrite Hc.
  destruct l as [|d l]; [reflexivity|].
  rewrite (IH Hl); [reflexivity|discriminate].
Qed.

Lemma scan_not_nil (b : bool) (s : text) : s <> [] -> scan b s <> [].
Proof.
  intros Hne E. pose proof (scan_head b s) as H. rewrite E in H.
  destruct s; [congruence|discriminate].
Qed.

(** Stripping a file line by line gives a file with the stripped lines. *)
Lemma lines_of_strip_text_upto (n : nat) :
  forall content, length content <= n ->
    lines_of (strip_text content) = map strip_comment (lines_of content).
Proof.
  unfold strip_text, strip_comment, sub. fold (scan true).
  induction n as [|n IH]; intros content Hn.
  - destruct content; [reflexivity|simpl in Hn; lia].
  - destruct (to_eol_split content) as (p & Hp & Hnp).
    destruct (to_eol content) as [|c t] eqn:Et.
    + rewrite app_nil_r in Hp. subst p.
      destruct content as [|c0 content']; [reflexivity|].
      rewrite (lines_of_last _ Hnp) by discriminate.
      cbn [map concat]. rewrite app_nil_r.
      destruct (scan_line _ Hnp true) as [_ N].
      rewrite (lines_of_last _ N); [reflexivity|].
      apply scan_not_nil. discriminate.
    + assert (Ec : c = nl).
      { pose proof (to_eol_head content) as H. rewrite Et in H. cbn in H.
        now apply Ascii.eqb_eq in H. }
      subst c. rewrite Hp, (lines_of_line _ _ Hnp). cbn [map concat].
      destruct (scan_line _ Hnp true) as [E N]. rewrite E, <- app_assoc. cbn [app].
      rewrite (lines_of_line _ _ N). f_equal. apply IH.
      rewrite Hp, length_app in Hn. cbn [length] in Hn. lia.
Qed.

End StripComment.

(** ** What [strip_comment] does to a line *)

Section StripClaims.

Lemma strip_comment_scan (s : text) : strip_comment s = scan true s.
Proof. reflexivity. Qed.

Lemma stripped_bytes_encode (content : text) :
  stripped_bytes content = encode_utf8 (strip_text content).
Proof.
  unfold stripped_bytes, strip_text, encode_utf8.
  induction (lines_of content) as [|l ls IH]; [reflexivity|].
  cbn [flat_map map concat]. now rewrite IH, flat_map_app.
Qed.

Lemma count_nl_none (s : text) : no_nl s = true -> count_nl s = 0.
Proof.
  unfold count_nl. induction s as [|c s IH]; [reflexivity|].
  rewrite no_nl_cons. intros H. apply andb_prop in H as [Hc Hs].
  apply negb_true_iff, Ascii.eqb_neq in Hc.
  rewrite count_occ_cons_neq by exact Hc. auto.
Qed.

Lemma count_nl_app (a b : text) : count_nl (a ++ b) = count_nl a + count_nl b.
Proof. apply count_occ_app. Qed.

Lemma strip_text_line (p t : text) :
  no_nl p = true ->
  strip_text (p ++ nl :: t) = strip_comment p ++ nl :: strip_text t.
Proof.
  intros Hp. unfold strip_text. rewrite (lines_of_line _ _ Hp). cbn [map concat].
  rewrite strip_comment_scan, (proj1 (scan_line _ Hp true)), <- app_assoc. reflexivity.
Qed.

Lemma strip_text_last (p : text) : no_nl p = true -> strip_text p = strip_comment p.
Proof.
  intros Hp. unfold strip_text. destruct p as [|c p]; [reflexivity|].
  rewrite (lines_of_last _ Hp) by discriminate. cbn [map concat]. apply app_nil_r.
Qed.

(** Stripping a file neither removes nor adds a newline. *)
Lemma count_nl_strip_text_upto (n : nat) :
  forall content, length content <= n -> count_nl (strip_text content) = count_nl content.
Proof.
  induction n as [|n IH]; intros content Hn.
  - destruct content; [reflexivity|simpl in Hn; lia].
  - destruct (to_eol_split content) as (p & Hp & Hnp).
    pose proof (proj2 (scan_line _ Hnp true)) as Hs. rewrite <- strip_comment_scan in Hs.
    destruct (to_eol content) as [|c t] eqn:Et.
    + rewrite app_nil_r in Hp. subst p.
      now rewrite (strip_text_last _ Hnp), (count_nl_none _ Hs), (count_nl_none _ Hnp).
    + assert (Ec : c = nl).
      { pose proof (to_eol_head content) as H. rewrite Et in H. cbn in H.
        now apply Ascii.eqb_eq in H. }
      subst c. rewrite Hp, (strip_text_line _ _ Hnp), !count_nl_app.
      rewrite (count_nl_none _ Hs), (count_nl_none _ Hnp).
      change (nl :: strip_text t) with ([nl] ++ strip_text t).
      change (nl :: t) with ([nl] ++ t). rewrite !count_nl_app. f_equal. f_equal.
      apply IH. rewrite Hp, length_app in Hn. cbn [length] in Hn. lia.
Qed.

Lemma utf8_char_newline (c : ascii) :
  count_nl_bytes (utf8_char c) = count_nl [c].
Proof. destruct c as [[] [] [] [] [] [] [] []]; vm_compute; reflexivity. Qed.

(** The encoding has a newline byte for each newline of the text, and no
    other. *)
Lemma encode_utf8_newlines (s : text) : count_nl_bytes (encode_utf8 s) = count_nl s.
Proof.
  unfold encode_utf8. induction s as [|c s IH]; [reflexivity|].
  cbn [flat_map]. unfold count_nl_bytes in *. rewrite count_occ_app.
  fold (count_nl_bytes (utf8_char c)). rewrite utf8_char_newline, IH.
  change (c :: s) with ([c] ++ s). now rewrite count_nl_app.
Qed.

(** C1, as the claim states it, fails: on the line [a%b] the percent sign
    follows no backslash, and the transform keeps it; what it returns is
    [a%], not [a]. *)
Lemma strip_comment_removes_percent_counterexample :
  tex_comment_free (txt "a") = true /\
  endswith (txt "a") [backslash] = false /\
  strip_comment (txt "a" ++ percent :: txt "b") = txt "a%" /\
  strip_comment (txt "a" ++ percent :: txt "b") <> txt "a".
Proof. repeat split; try reflexivity. discriminate. Qed.

Lemma tex_comment_free_regex (s : text) :
  forall odd esc,
    tex_comment_free_after odd s = true -> (odd = true -> esc = true) ->
    comment_free_after esc s = true.
Proof.
  induction s as [|c s IH]; intros odd esc H Himp; [reflexivity|].
  cbn [tex_comment_free_after comment_free_after] in *.
  destruct (Ascii.eqb c percent) eqn:Ec.
  - apply andb_prop in H as [Hodd H]. rewrite (Himp Hodd). cbn [andb].
    apply (IH false false H). discriminate.
  - destruct (Ascii.eqb c backslash).
    + apply (IH (negb odd) true H). reflexivity.
    + apply (IH false false H). discriminate.
Qed.

(** What the amended C1 leaves out: a percent sign right after a doubled
    backslash starts a comment for TeX, and [strip_comment] does not strip
    it. *)
Lemma strip_comment_after_double_backslash :
  tex_comment_free (txt "a & b \\% note") = false /\
  strip_comment (txt "a & b \\% note") = txt "a & b \\% note".
Proof. split; reflexivity. Qed.

(** C1 (amended): on a line [pre % rest eol], where every percent sign of
    [pre] is escaped (it follows an odd number of backslashes), [pre] does
    not end in a backslash, [rest] holds no newline and [eol] is the line's
    newline or nothing, [strip_comment] returns [pre % eol]: everything after
    the first unescaped percent sign is removed up to the newline, that
    percent sign itself stays, and the escaped percent signs of [pre] are
    kept as they are.  A line whose first unescaped percent sign comes right
    after backslashes (an even number of them, as in [\\%]) is left out. *)
Theorem strip_comment_cuts_after_percent (pre rest eol : text) :
  tex_comment_free pre = true ->
  endswith pre [backslash] = false ->
  no_nl rest = true ->
  eol = [] \/ eol = [nl] ->
  strip_comment (pre ++ percent :: rest ++ eol) = pre ++ percent :: eol.
Proof.
  intros Htex Hend Hr He. rewrite strip_comment_scan.
  assert (Hcf : comment_free_after false pre = true).
  { apply (tex_comment_free_regex pre false false Htex). discriminate. }
  destruct pre as [|c pre'].
  - cbn [app]. rewrite scan_cons. unfold opens. cbn [andb].
    replace (Ascii.eqb percent percent) with true by reflexivity.
    cbn [length skipn app].
    now rewrite (to_eol_eol _ _ Hr He), (scan_eol _ He).
  - change ((c :: pre') ++ percent :: rest ++ eol)
      with (c :: (pre' ++ percent :: rest ++ eol)).
    rewrite (scan_start c _ (comment_free_head _ _ Hcf)).
    apply (scan_false_prefix rest eol Hr He (c :: pre') false Hcf);
      [discriminate|exact Hend].
Qed.

Lemma strip_comment_cuts_after_percent_witness :
  strip_comment (txt "50\% off \\\% " ++ percent :: txt " note" ++ [nl])
  = txt "50\% off \\\% " ++ percent :: [nl].
Proof.
  apply (strip_comment_cuts_after_percent (txt "50\% off \\\% ") (txt " note") [nl]);
    [reflexivity | reflexivity | reflexivity | right; reflexivity].
Defined.

(** C8: [strip_comment] is idempotent, on every text. *)
Theorem strip_comment_idempotent (s : text) :
  strip_comment (strip_comment s) = strip_comment s.
Proof.
  rewrite !strip_comment_scan.
  apply (scan_idempotent_upto (length s)). lia.
Qed.

(** C10: [strip_comment] returns a text without percent sign unchanged; it
    keeps the newline that ends a line, and adds none; so the lines of the
    stripped copy of a file are the stripped lines of the file, as many as
    the file has, and the bytes written for it hold as many newlines as the
    file. *)
Theorem strip_comment_keeps_lines :
  (forall l : text, existsb (Ascii.eqb percent) l = false -> strip_comment l = l) /\
  (forall l : text, no_nl l = true ->
     strip_comment (l ++ [nl]) = strip_comment l ++ [nl] /\
     no_nl (strip_comment l) = true) /\
  (forall content : text,
     lines_of (strip_text content) = map strip_comment (lines_of content)) /\
  (forall content : text,
     length (lines_of (strip_text content)) = length (lines_of content)) /\
  (forall content : text,
     stripped_bytes content = encode_utf8 (strip_text content) /\
     count_nl_bytes (stripped_bytes content) = count_nl content).
Proof.
  split; [|split; [|split; [|split]]].
  - intros l H. apply scan_no_percent, H.
  - intros l H. apply (scan_line l H true).
  - intros content. apply (lines_of_strip_text_upto (length content)). lia.
  - intros content.
    rewrite (lines_of_strip_text_upto (length content)) by lia.
    apply length_map.
  - intros content. split; [apply stripped_bytes_encode|].
    rewrite stripped_bytes_encode, encode_utf8_newlines.
    apply (count_nl_strip_text_upto (length content)). lia.
Qed.

End StripClaims.

(** ** Text helpers *)

Section TextFacts.

Lemma text_eqb_eq (a b : text) : text_eqb a b = true <-> a = b.
Proof.
  revert b; induction a as [|x a IH]; intros [|y b]; cbn [text_eqb];
    try (split; [discriminate|congruence]); [split; reflexivity|].
  rewrite andb_true_iff, Ascii.eqb_eq, IH. split; [intros [-> ->]; reflexivity|].
  intros [= -> ->]. split; reflexivity.
Qed.

Lemma text_eqb_refl (a : text) : text_eqb a a = true.
Proof. now apply text_eqb_eq. Qed.

Lemma endswith_spec (s suf : text) :
  endswith s suf = true <-> exists p, s = p ++ suf.
Proof.
  unfold endswith. rewrite andb_true_iff, Nat.leb_le, text_eqb_eq. split.
  - intros [_ H]. exists (firstn (length s - length suf) s).
    pose proof (firstn_skipn (length s - length suf) s) as E.
    rewrite H in E. now symmetry.
  - intros (p & ->). split; [rewrite length_app; lia|apply skipn_tail].
Qed.

(** A text has one suffix of each length. *)
Lemma endswith_same_length (s a b : text) :
  length a = length b -> endswith s a = true -> endswith s b = true -> a = b.
Proof.
  intros Hl Ha Hb. apply endswith_spec in Ha as (p & Hp), Hb as (q & Hq).
  rewrite <- (skipn_tail p a), <- (skipn_tail q b), <- Hp, <- Hq, Hl. reflexivity.
Qed.

Lemma endswith_app (s a b : text) : endswith s (a ++ b) = true -> endswith s b = true.
Proof.
  intros H. apply endswith_spec in H as (p & ->). apply endswith_spec.
  exists (p ++ a). now rewrite <- app_assoc.
Qed.

Lemma endswith_other (s a b : text) :
  length a = length b -> a <> b -> endswith s a = true -> endswith s b = false.
Proof.
  intros Hl Hne Ha. destruct (endswith s b) eqn:Hb; [|reflexivity].
  destruct Hne. now apply (endswith_same_length s).
Qed.

Lemma lines_of_nonempty (s : text) : Forall (fun l => l <> []) (lines_of s).
Proof.
  induction s as [|c s IH]; cbn [lines_of]; [constructor|].
  destruct (Ascii.eqb c nl).
  - constructor; [discriminate|exact IH].
  - destruct (lines_of s) as [|l ls]; constructor; try discriminate.
    + constructor.
    + now inversion IH.
Qed.

End TextFacts.

(** ** The package pattern *)

Section PackagePattern.

Lemma run_lit (A : Type) (a : text) :
  forall (b : bool) (s : text) (g : option text) (k : bool -> text -> option text -> option A),
    run (lit a) b s g k =
    if startswith s a
    then k (match a with [] => b | _ => false end) (skipn (length a) s) g
    else None.
Proof.
  induction a as [|c a IH]; intros b s g k; [now destruct s|].
  cbn [lit fold_right run]. fold (lit a).
  destruct s as [|x s]; [reflexivity|]. cbn [startswith length skipn].
  destruct (Ascii.eqb x c); [|reflexivity]. cbn [andb].
  rewrite IH. destruct a; reflexivity.
Qed.

Lemma hit_lit (a : text) (b : bool) (s : text) : hit (lit a) b s = startswith s a.
Proof. unfold hit, match_at. rewrite run_lit. now destruct (startswith s a). Qed.

Lemma hit_alt_of (rs : list re) (b : bool) (s : text) :
  rs <> [] -> hit (alt_of rs) b s = existsb (fun r => hit r b s) rs.
Proof.
  induction rs as [|r rs IH]; intros Hne; [congruence|].
  destruct rs as [|r2 rs].
  - cbn [alt_of existsb]. now rewrite orb_false_r.
  - change (alt_of (r :: r2 :: rs)) with (Alt r (alt_of (r2 :: rs))).
    transitivity (hit r b s || hit (alt_of (r2 :: rs)) b s).
    + unfold hit, match_at. cbn [run].
      now destruct (run r b s None (fun _ s' g => Some (s', g))).
    + rewrite IH by discriminate. reflexivity.
Qed.

Lemma search_from_step (r : re) (b : bool) (s : text) :
  search_from r b s =
  hit r b s || match s with [] => false | _ :: s' => search_from r false s' end.
Proof.
  unfold hit. destruct s; cbn [search_from];
    now destruct (match_at r b _).
Qed.

Lemma branches_not_nil (ts : list tok) : branches ts <> [].
Proof.
  induction ts as [|[c|] ts IH]; cbn [branches]; try discriminate.
  destruct (branches ts); discriminate.
Qed.

Lemma branches_lits (a : text) (ts : list tok) :
  branches (map TLit a ++ TBar :: ts) = a :: branches ts.
Proof.
  induction a as [|c a IH]; [reflexivity|].
  cbn [map app branches]. now rewrite IH.
Qed.

Lemma branches_last (a : text) : branches (map TLit a) = [a].
Proof.
  induction a as [|c a IH]; [reflexivity|].
  cbn [map branches]. now rewrite IH.
Qed.

Lemma hit_branches (alts : list text) (b : bool) (s : text) :
  existsb (fun r => hit r b s) (map lit alts) = existsb (startswith s) alts.
Proof.
  induction alts as [|a alts IH]; [reflexivity|].
  cbn [map existsb]. now rewrite hit_lit, IH.
Qed.

Lemma contains_branches (alts : list text) (c : ascii) (s : text) :
  existsb (contains (c :: s)) alts
  = existsb (startswith (c :: s)) alts || existsb (contains s) alts.
Proof.
  induction alts as [|a alts IH]; [reflexivity|].
  cbn [existsb]. rewrite IH. cbn [contains].
  destruct (startswith (c :: s) a), (contains s a),
    (existsb (startswith (c :: s)) alts); reflexivity.
Qed.

(** A compiled source without parentheses is found in a text exactly when one
    of its branches occurs in the text. *)
Lemma search_compile (ts : list tok) (s : text) :
  search (compile ts) s = existsb (contains s) (branches ts).
Proof.
  assert (Hne : map lit (branches ts) <> []).
  { intros E. apply map_eq_nil in E. now apply branches_not_nil in E. }
  unfold search, compile. generalize true.
  induction s as [|c s IH]; intros b; rewrite search_from_step.
  - rewrite orb_false_r, (hit_alt_of _ _ _ Hne), hit_branches. clear Hne.
    induction (branches ts) as [|a l IHl]; [reflexivity|].
    cbn [existsb contains]. now rewrite IHl, orb_false_r.
  - now rewrite IH, (hit_alt_of _ _ _ Hne), hit_branches, contains_branches.
Qed.

(** X1: with one package configured, the pattern is found exactly in the paths
    that hold [/<pkg>/]. *)
Lemma pkg_re_single (p dep : text) :
  search (pkg_re [p]) dep = contains dep (slash :: p ++ [slash]).
Proof.
  unfold pkg_re. rewrite search_compile. unfold pkg_source, escape.
  cbn [map join_bar].
  change (TLit slash :: map TLit p ++ [TLit slash])
    with (map TLit [slash] ++ map TLit p ++ map TLit [slash]).
  rewrite <- !map_app, branches_last. cbn [existsb app]. now rewrite orb_false_r.
Qed.

Lemma pkg_source_first (p q : text) (rest : list text) :
  pkg_source (p :: q :: rest)
  = map TLit (slash :: p) ++ TBar :: (join_bar (map escape (q :: rest)) ++ [TLit slash]).
Proof.
  unfold pkg_source.
  change (join_bar (map escape (p :: q :: rest)))
    with (escape p ++ TBar :: join_bar (map escape (q :: rest))).
  rewrite <- app_assoc. reflexivity.
Qed.

(** With two packages or more, the first branch of the pattern is [/<pkg>]
    without the closing slash. *)
Lemma pkg_re_first_branch (p q : text) (rest : list text) (dep : text) :
  contains dep (slash :: p) = true -> search (pkg_re (p :: q :: rest)) dep = true.
Proof.
  intros H. unfold pkg_re.
  rewrite search_compile, pkg_source_first, branches_lits.
  cbn [existsb]. now rewrite H.
Qed.

End PackagePattern.

(** ** The classifier *)

Section Classifier.

Lemma not_tex_of_bib (dep : text) :
  endswith dep (txt ".bib") = true -> endswith dep (txt ".tex") = false.
Proof. apply endswith_other; [reflexivity|discriminate]. Qed.

Lemma not_eps_of_bib (dep : text) :
  endswith dep (txt ".bib") = true -> endswith dep (txt ".eps") = false.
Proof. apply endswith_other; [reflexivity|discriminate]. Qed.

Lemma not_tex_of_pdf (dep : text) :
  endswith dep (txt ".pdf") = true -> endswith dep (txt ".tex") = false.
Proof. apply endswith_other; [reflexivity|discriminate]. Qed.

Lemma not_eps_of_pdf (dep : text) :
  endswith dep (txt ".pdf") = true -> endswith dep (txt ".eps") = false.
Proof. apply endswith_other; [reflexivity|discriminate]. Qed.

Lemma not_tex_of_eps (dep : text) :
  endswith dep (txt ".eps") = true -> endswith dep (txt ".tex") = false.
Proof. apply endswith_other; [reflexivity|discriminate]. Qed.

(** C2 (the code departs from the claim): with the packages [biblatex] and
    [natbib] configured, the absolute path
    [/usr/share/texmf/tex/latex/biblatex-chicago/cms.cbx] holds neither
    [/biblatex/] nor [/natbib/], and the classifier adds it all the same,
    under its base name: the pattern compiled from
    ['/' + 'biblatex|natbib' + '/'] has the branches [/biblatex] and
    [natbib/]. *)
Lemma package_filter_first_branch_without_slash :
  branches (pkg_source (packages two_package_config)) = [txt "/biblatex"; txt "natbib/"] /\
  startswith (dep_of_line chicago_line) [slash] = true /\
  contains (dep_of_line chicago_line) (txt "/biblatex/") = false /\
  contains (dep_of_line chicago_line) (txt "/natbib/") = false /\
  on_line two_package_config (sample_world 0) chicago_line
  = Emit [Add (txt "/usr/share/texmf/tex/latex/biblatex-chicago/cms.cbx") (txt "cms.cbx")].
Proof. repeat split; vm_compute; reflexivity. Qed.

(** C3, as the claim states it, fails: the path
    [/usr/share/texmf/bibtex/bib/biblatex/biblatex-examples.bib] ends in
    [.bib], and with the default package it is added, under its base name. *)
Lemma bib_source_skipped_counterexample :
  endswith (dep_of_line packaged_bib_line) (txt ".bib") = true /\
  on_line default_config (sample_world 0) packaged_bib_line
  = Emit [Add (txt "/usr/share/texmf/bibtex/bib/biblatex/biblatex-examples.bib")
              (txt "biblatex-examples.bib")].
Proof. split; vm_compute; reflexivity. Qed.

(** C3 (amended): for a dependency line whose path ends in [.bib], nothing
    is added to the archive, unless the path is absolute and the package
    pattern is found in it (the first rule of the classifier, which then
    decides). *)
Theorem bib_source_skipped (c : config) (w : world) (line : text) :
  endswith (dep_of_line line) (txt ".bib") = true ->
  startswith (dep_of_line line) [slash]
    && search (pkg_re (packages c)) (dep_of_line line) = false ->
  on_line c w line = Emit [].
Proof.
  intros Hbib Hrule. unfold on_line, classify.
  destruct (startswith (dep_of_line line) [slash]).
  - cbn [andb] in Hrule. now rewrite Hrule.
  - rewrite (not_tex_of_bib _ Hbib), (not_eps_of_bib _ Hbib), Hbib. cbn [andb].
    now destruct (endswith (dep_of_line line) (txt "-eps-converted-to.pdf")).
Qed.

Lemma bib_source_skipped_witness :
  on_line default_config (sample_world 0) (txt "    refs.bib\" ++ [nl]) = Emit [].
Proof.
  apply (bib_source_skipped default_config (sample_world 0) (txt "    refs.bib\" ++ [nl]));
    reflexivity.
Defined.

(** C9, as the claim states it, fails: the path
    [/usr/share/texmf/tex/latex/biblatex/logo-eps-converted-to.pdf] ends in
    [-eps-converted-to.pdf], and with the default package it is added, under
    its base name. *)
Lemma converted_pdf_skipped_counterexample :
  endswith (dep_of_line packaged_pdf_line) (txt "-eps-converted-to.pdf") = true /\
  on_line default_config (sample_world 0) packaged_pdf_line
  = Emit [Add (txt "/usr/share/texmf/tex/latex/biblatex/logo-eps-converted-to.pdf")
              (txt "logo-eps-converted-to.pdf")].
Proof. split; vm_compute; reflexivity. Qed.

(** C9 (amended): for a dependency line whose path ends in
    [-eps-converted-to.pdf], nothing is added to the archive, unless the
    path is absolute and the package pattern is found in it (the first rule
    of the classifier, which then decides). *)
Theorem converted_pdf_skipped (c : config) (w : world) (line : text) :
  endswith (dep_of_line line) (txt "-eps-converted-to.pdf") = true ->
  startswith (dep_of_line line) [slash]
    && search (pkg_re (packages c)) (dep_of_line line) = false ->
  on_line c w line = Emit [].
Proof.
  intros Hconv Hrule. unfold on_line, classify.
  destruct (startswith (dep_of_line line) [slash]).
  - cbn [andb] in Hrule. now rewrite Hrule.
  - assert (Hpdf : endswith (dep_of_line line) (txt ".pdf") = true).
    { apply (endswith_app _ (txt "-eps-converted-to")). exact Hconv. }
    rewrite (not_tex_of_pdf _ Hpdf), (not_eps_of_pdf _ Hpdf), Hconv. reflexivity.
Qed.

Lemma converted_pdf_skipped_witness :
  on_line default_config (sample_world 0)
          (txt "    figures/plot-eps-converted-to.pdf\" ++ [nl]) = Emit [].
Proof.
  apply (converted_pdf_skipped default_config (sample_world 0)
           (txt "    figures/plot-eps-converted-to.pdf\" ++ [nl]));
    reflexivity.
Defined.

(** C4, as the claim states it, fails: the path
    [/usr/share/texmf/tex/latex/biblatex/logo.eps] ends in [.eps] and has no
    converted companion; with the default package the run does not fail, and
    the file is added as it is, under a name that ends in [.eps]. *)
Lemma eps_replaced_by_companion_counterexample :
  endswith (dep_of_line packaged_eps_line) (txt ".eps") = true /\
  path_exists (fs (sample_world 0)) (eps_companion (dep_of_line packaged_eps_line)) = false /\
  on_line default_config (sample_world 0) packaged_eps_line
  = Emit [Add (txt "/usr/share/texmf/tex/latex/biblatex/logo.eps") (txt "logo.eps")].
Proof. repeat split; vm_compute; reflexivity. Qed.

(** C4 (amended): for a dependency line whose path is relative and ends in
    [.eps], the companion is the path with [.eps] replaced by
    [-eps-converted-to.pdf]; when it does not exist the run fails with an
    assertion error; when it exists and its links resolve to [t], the one
    call made is [add(t, arcname=<base>.pdf)], whose name does not end in
    [.eps]. *)
Theorem eps_replaced_by_companion (c : config) (w : world) (line : text) :
  endswith (dep_of_line line) (txt ".eps") = true ->
  startswith (dep_of_line line) [slash] = false ->
  (path_exists (fs w) (eps_companion (dep_of_line line)) = false ->
   on_line c w line = Abort (Raised AssertionError)) /\
  (forall t : text,
     path_exists (fs w) (eps_companion (dep_of_line line)) = true ->
     target (fs w) (link_fuel w) (eps_companion (dep_of_line line)) = Some t ->
     on_line c w line = Emit [Add t (eps_arcname (dep_of_line line))]) /\
  endswith (eps_arcname (dep_of_line line)) (txt ".eps") = false.
Proof.
  intros Heps Hrel. unfold on_line, classify, add_resolved.
  rewrite Hrel, (not_tex_of_eps _ Heps), Heps. cbn [andb].
  fold (eps_companion (dep_of_line line)). fold (eps_arcname (dep_of_line line)).
  split; [|split].
  - now intros ->.
  - now intros t -> ->.
  - apply not_eps_of_pdf. apply endswith_spec.
    now exists (drop_last 4 (dep_of_line line)).
Qed.

Lemma eps_replaced_by_companion_witness :
  on_line default_config (sample_world 0) (txt "    figures/plot.eps\" ++ [nl])
  = Emit [Add (txt "figures/plot-eps-converted-to.pdf") (txt "figures/plot.pdf")].
Proof.
  apply (proj1 (proj2 (eps_replaced_by_companion default_config (sample_world 0)
                         (txt "    figures/plot.eps\" ++ [nl]) eq_refl eq_refl)));
    reflexivity.
Defined.

End Classifier.

(** ** Reading the dependency block *)

Section ReadUntil.

Lemma text_eqb_nil (l : text) : l <> [] -> text_eqb l [] = false.
Proof. destruct l; [congruence|reflexivity]. Qed.

Lemma consume_yields (ys : list text) (stop : gen) :
  consume (yields_then ys stop) = consume stop.
Proof. induction ys as [|y ys IH]; [reflexivity|exact IH]. Qed.

Lemma yielded_yields (ys : list text) (unread : list text) :
  yielded (yields_then ys (Return unread)) = ys.
Proof.
  induction ys as [|y ys IH]; [reflexivity|].
  cbn [yields_then fold_right yielded]. fold (yields_then ys (Return unread)).
  now rewrite IH.
Qed.

(** Up to the first line that passes the check, every line is yielded; that
    line ends the generator, and what follows it stays unread. *)
Lemma read_until_found (check : text -> bool) (pre : list text) (l : text)
      (rest : list text) :
  Forall (fun x => x <> []) pre ->
  (forall x, In x pre -> check x = false) ->
  l <> [] -> check l = true ->
  read_until check (pre ++ l :: rest) = yields_then pre (Return rest).
Proof.
  intros Hne Hpre Hl Hc. induction pre as [|x pre IH]; cbn [app read_until yields_then fold_right].
  - now rewrite (text_eqb_nil _ Hl), Hc.
  - inversion Hne as [|? ? Hx Hne']; subst.
    rewrite (text_eqb_nil _ Hx), (Hpre x (or_introl eq_refl)).
    f_equal. apply IH; [exact Hne'|]. intros y Hy. apply Hpre. now right.
Qed.

Lemma read_until_exhausted (check : text -> bool) (pending : list text) :
  Forall (fun x => x <> []) pending ->
  (forall x, In x pending -> check x = false) ->
  read_until check pending = yields_then pending (Raise UnexpectedEOF).
Proof.
  intros Hne Hall. induction pending as [|x pending IH]; [reflexivity|].
  cbn [read_until yields_then fold_right].
  inversion Hne as [|? ? Hx Hne']; subst.
  rewrite (text_eqb_nil _ Hx), (Hall x (or_introl eq_refl)).
  f_equal. apply IH; [exact Hne'|]. intros y Hy. apply Hall. now right.
Qed.

Lemma consume_read_until_exhausted (check : text -> bool) (pending : list text) :
  (forall x, In x pending -> check x = false) ->
  consume (read_until check pending) = inl UnexpectedEOF.
Proof.
  intros Hall. induction pending as [|x pending IH]; [reflexivity|].
  cbn [read_until]. destruct (text_eqb x []); [reflexivity|].
  rewrite (Hall x (or_introl eq_refl)). cbn [consume].
  apply IH. intros y Hy. apply Hall. now right.
Qed.

(** The loop over a generator whose lines are all classified without error
    does, in order, what the classifier says for each line. *)
Lemma for_each_yields (body : text -> action) (ys : list text)
      (evss : list (list event)) (stop : gen) :
  Forall2 (fun y evs => body y = Emit evs) ys evss ->
  forall done, for_each body (yields_then ys stop) done
               = for_each body stop (done ++ concat evss).
Proof.
  induction 1 as [|y evs ys evss Hy _ IH]; intros done.
  - cbn. now rewrite app_nil_r.
  - cbn [yields_then fold_right for_each concat]. rewrite Hy.
    fold (yields_then ys stop). rewrite IH. now rewrite app_assoc.
Qed.

(** C7: when no line still to come passes the check, [read_until] raises
    the unexpected-end-of-stream error and does not return; before that it
    yields every line of the stream, none left out. *)
Theorem read_until_unexpected_eof (check : text -> bool) (pending : list text) :
  (forall l, In l pending -> check l = false) ->
  consume (read_until check pending) = inl UnexpectedEOF /\
  (Forall (fun l => l <> []) pending ->
   read_until check pending = yields_then pending (Raise UnexpectedEOF)).
Proof.
  intros Hall. split.
  - now apply consume_read_until_exhausted.
  - intros Hne. now apply read_until_exhausted.
Qed.

Lemma read_until_unexpected_eof_witness :
  consume (read_until (matches (start_re (txt "main")))
                      (lines_of (txt "Latexmk: could not run pdflatex" ++ [nl])))
  = inl UnexpectedEOF.
Proof.
  refine (proj1 (read_until_unexpected_eof (matches (start_re (txt "main")))
                   (lines_of (txt "Latexmk: could not run pdflatex" ++ [nl])) _)).
  intros l H. vm_compute in H. destruct H as [<-|[]]. reflexivity.
Defined.

End ReadUntil.

(** ** A run of [collect] *)

Section Collect.

Variables (c : config) (w : world).

Lemma body_is_on_line :
  (fun line => classify c (fs w) (link_fuel w) (dep_of_line line)) = on_line c w.
Proof. reflexivity. Qed.

Lemma end_line_not_nil (base : text) : end_line base <> [].
Proof. discriminate. Qed.

(** A well-formed dependency block whose lines are all classified without
    error: the run gets to the return code, having done for each line, in
    order, what the classifier says. *)
Lemma collect_block (pre : list text) (start header : text) (deps post : list text)
      (evss : list (list event)) :
  lines_of (stdout w)
    = pre ++ start :: header :: deps ++ end_line (base_name c) :: post ->
  (forall l, In l pre -> matches (start_re (base_name c)) l = false) ->
  matches (start_re (base_name c)) start = true ->
  strip header = header_line (base_name c) ->
  ~ In (end_line (base_name c)) deps ->
  Forall2 (fun line evs => on_line c w line = Emit evs) deps evss ->
  collect c w = finish c w (concat evss).
Proof.
  intros Hout Hpre Hstart Hhead Hend Hdeps.
  pose proof (lines_of_nonempty (stdout w)) as Hne. rewrite Hout in Hne.
  apply Forall_app in Hne as [Hne_pre Hne]. inversion Hne as [|? ? Hne_start Hne1]; subst.
  inversion Hne1 as [|? ? _ Hne2]; subst. apply Forall_app in Hne2 as [Hne_deps _].
  unfold collect. rewrite Hout.
  rewrite (read_until_found _ pre start _ Hne_pre Hpre Hne_start Hstart).
  rewrite consume_yields. cbn [consume next_line].
  rewrite Hhead, text_eqb_refl, body_is_on_line.
  rewrite (read_until_found _ deps (end_line (base_name c)) post Hne_deps).
  - rewrite (for_each_yields _ _ _ _ Hdeps). reflexivity.
  - intros x Hx. destruct (text_eqb (end_line (base_name c)) x) eqn:E; [|reflexivity].
    apply text_eqb_eq in E. subst x. contradiction.
  - apply end_line_not_nil.
  - apply text_eqb_refl.
Qed.

(** X2: for a base name without pattern metacharacters, a run whose output
    holds no start marker raises the unexpected-end-of-stream error before
    anything is added. *)
Lemma collect_without_start :
  plain_name (base_name c) = true ->
  (forall l, In l (lines_of (stdout w)) -> matches (start_re (base_name c)) l = false) ->
  collect c w = ([], Raised UnexpectedEOF).
Proof.
  intros _ H. unfold collect.
  now rewrite (consume_read_until_exhausted _ _ H).
Qed.

(** X18: for a base name without pattern metacharacters, when the output
    holds the start marker and the rule header but no end marker, and every
    dependency line is classified without error, the run makes the calls of
    those lines in order and then raises the unexpected-end-of-stream
    error. *)
Lemma collect_without_end (pre : list text) (start header : text) (deps : list text)
      (evss : list (list event)) :
  plain_name (base_name c) = true ->
  lines_of (stdout w) = pre ++ start :: header :: deps ->
  (forall l, In l pre -> matches (start_re (base_name c)) l = false) ->
  matches (start_re (base_name c)) start = true ->
  strip header = header_line (base_name c) ->
  ~ In (end_line (base_name c)) deps ->
  Forall2 (fun line evs => on_line c w line = Emit evs) deps evss ->
  collect c w = (concat evss, Raised UnexpectedEOF).
Proof.
  intros _ Hout Hpre Hstart Hhead Hend Hdeps.
  pose proof (lines_of_nonempty (stdout w)) as Hne. rewrite Hout in Hne.
  apply Forall_app in Hne as [Hne_pre Hne]. inversion Hne as [|? ? Hne_start Hne1]; subst.
  inversion Hne1 as [|? ? _ Hne_deps]; subst.
  unfold collect. rewrite Hout.
  rewrite (read_until_found _ pre start _ Hne_pre Hpre Hne_start Hstart).
  rewrite consume_yields. cbn [consume next_line].
  rewrite Hhead, text_eqb_refl, body_is_on_line.
  rewrite (read_until_exhausted _ deps Hne_deps).
  - rewrite (for_each_yields _ _ _ _ Hdeps). reflexivity.
  - intros x Hx. destruct (text_eqb (end_line (base_name c)) x) eqn:E; [|reflexivity].
    apply text_eqb_eq in E. subst x. contradiction.
Qed.

End Collect.

(** ** The order of the archive and the failed build *)

Section RunClaims.



(** C6, as the claim states it, fails: a build that writes nothing and
    returns 12 ends the run with the unexpected-end-of-stream error; the
    clean-up is not run and the run does not exit with 12. *)
Lemma failed_build_exits_counterexample :
  plain_name (base_name default_config) = true /\
  returncode silent_failure = 12%Z /\
  collect default_config silent_failure = ([], Raised UnexpectedEOF).
Proof. repeat split; reflexivity. Qed.

(** C6 (amended): for a base name without pattern metacharacters, when the
    dependency block is read to its end marker with every dependency line
    classified without error, the build returns a non-zero code and the
    clean-up run returns 0, the run calls the clean-up after the calls of the
    dependency lines and exits with the build's return code; the call that
    adds [<base_name>.bbl] after the loop is not made. *)
Theorem failed_build_exits (c : config) (w : world) (pre : list text)
        (start header : text) (deps post : list text) (evss : list (list event)) :
  plain_name (base_name c) = true ->
  lines_of (stdout w)
    = pre ++ start :: header :: deps ++ end_line (base_name c) :: post ->
  (forall l, In l pre -> matches (start_re (base_name c)) l = false) ->
  matches (start_re (base_name c)) start = true ->
  strip header = header_line (base_name c) ->
  ~ In (end_line (base_name c)) deps ->
  Forall2 (fun line evs => on_line c w line = Emit evs) deps evss ->
  returncode w <> 0%Z ->
  clean_returncode w = 0%Z ->
  collect c w = (concat evss ++ [Clean], SysExit (returncode w)).
Proof.
  intros _ Hout Hpre Hstart Hhead Hend Hdeps Hrc Hclean.
  rewrite (collect_block c w pre start header deps post evss Hout Hpre Hstart Hhead Hend Hdeps).
  unfold finish. apply Z.eqb_neq in Hrc. rewrite Hrc, Hclean. reflexivity.
Qed.

Lemma failed_build_exits_witness :
  collect default_config (sample_world 12)
  = (concat sample_events ++ [Clean], SysExit 12).
Proof.
  apply (failed_build_exits default_config (sample_world 12) sample_preamble
           sample_start sample_header sample_deps sample_trailer sample_events).
  - reflexivity.
  - vm_compute. reflexivity.
  - sample_lines.
  - vm_compute. reflexivity.
  - vm_compute. reflexivity.
  - sample_no_end_line.
  - sample_classified.
  - discriminate.
  - reflexivity.
Defined.

Lemma classify_never_returns (c : config) (f : filesys) (fuel : nat) (dep : text) :
  classify c f fuel dep <> Abort Returned.
Proof.
  unfold classify, add_resolved.
  repeat match goal with
         | |- context [if ?b then _ else _] => destruct b
         | |- context [match ?x with Some _ => _ | None => _ end] => destruct x
         end; discriminate.
Qed.

Lemma for_each_never_returns (body : text -> action) (g : gen) :
  (forall l, body l <> Abort Returned) ->
  forall done evs, for_each body g done <> (evs, inl Returned).
Proof.
  intros Hbody. induction g as [line rest IH|unread|e]; intros done evs; cbn [for_each].
  - destruct (body line) as [evs'|o] eqn:E; [apply IH|].
    intros [= _ ->]. now apply (Hbody line).
  - discriminate.
  - discriminate.
Qed.

(** X3: a run that returns has made the call that adds [<base_name>.bbl], and
    made it last. *)
Lemma returned_run_ends_with_bbl (c : config) (w : world) (evs : list event) :
  collect c w = (evs, Returned) -> exists before, evs = before ++ [bbl_entry c].
Proof.
  unfold collect.
  destruct (consume _) as [e|unread]; [discriminate|].
  destruct (next_line unread) as [header unread'].
  destruct (text_eqb _ _); [|discriminate].
  destruct (for_each _ _ _) as [done [o|rest]] eqn:E.
  - intros [= -> ->]. exfalso. revert E. apply for_each_never_returns.
    intros l. apply classify_never_returns.
  - unfold finish. destruct (Z.eqb (returncode w) 0).
    + intros [= <-]. now exists done.
    + destruct (Z.eqb (clean_returncode w) 0); discriminate.
Qed.

Lemma returned_run_ends_with_bbl_witness :
  exists before, concat sample_events ++ [bbl_entry default_config]
                 = before ++ [bbl_entry default_config].
Proof.
  apply (returned_run_ends_with_bbl default_config (sample_world 0)).
  vm_compute. reflexivity.
Defined.

(** When the clean-up run itself fails, [check_call] raises and the run does
    not exit with the build's return code. *)
Lemma failed_clean_raises (c : config) (w : world) (evs : list event) :
  returncode w <> 0%Z -> clean_returncode w <> 0%Z ->
  finish c w evs = (evs ++ [Clean], Raised (CalledProcessError (clean_returncode w))).
Proof.
  intros Hrc Hclean. unfold finish.
  apply Z.eqb_neq in Hrc, Hclean. now rewrite Hrc, Hclean.
Qed.

Lemma collect_without_start_witness :
  collect default_config
          {| fs := sample_fs; stdout := txt "Latexmk: could not run pdflatex" ++ [nl];
             returncode := 12; clean_returncode := 0; link_fuel := 8 |}
  = ([], Raised UnexpectedEOF).
Proof.
  apply collect_without_start; [reflexivity|].
  intros l H. vm_compute in H. destruct H as [<-|[]]. reflexivity.
Defined.

End RunClaims.

(** ** More on [strip_comment] and on lines *)

Section StripMore.

Lemma scan_comment_free (s : text) :
  forall esc, comment_free_after esc s = true -> scan false s = s.
Proof.
  induction s as [|c t IH]; intros esc Hcf; [apply scan_nil|].
  pose proof (comment_free_tail _ _ _ Hcf) as Htl.
  rewrite scan_cons.
  assert (Ho : opens false c (hd_error t) = None).
  { unfold opens. cbn [andb]. destruct (Ascii.eqb c backslash) eqn:E; [reflexivity|].
    destruct t as [|d t']; [reflexivity|]. cbn [hd_error].
    now rewrite (comment_free_head _ _ Htl). }
  rewrite Ho. f_equal. exact (IH _ Htl).
Qed.

(** X4: a text in which every percent sign follows a backslash is returned
    unchanged by [strip_comment]. *)
Theorem strip_comment_escaped_only (s : text) :
  comment_free s = true -> strip_comment s = s.
Proof.
  intros Hcf. rewrite strip_comment_scan. destruct s as [|c t]; [apply scan_nil|].
  rewrite (scan_start c t (comment_free_head _ _ Hcf)).
  exact (scan_comment_free _ _ Hcf).
Qed.

Lemma strip_comment_escaped_only_witness :
  strip_comment (txt "growth of 5\% and 7\%" ++ [nl]) = txt "growth of 5\% and 7\%" ++ [nl].
Proof. apply strip_comment_escaped_only. reflexivity. Defined.

Lemma scan_after_nl (t : text) : scan false (nl :: t) = nl :: scan true t.
Proof.
  rewrite scan_cons. destruct t as [|d t']; [now rewrite scan_nil|].
  cbn [hd_error]. unfold opens. cbn [andb].
  replace (Ascii.eqb nl backslash) with false by reflexivity.
  destruct (Ascii.eqb d percent) eqn:Ed.
  - apply Ascii.eqb_eq in Ed. subst d. rewrite scan_cons. unfold opens. cbn [andb].
    replace (Ascii.eqb percent percent) with true by reflexivity. reflexivity.
  - now rewrite (scan_start d t' Ed).
Qed.

Lemma opens_before_nl (b : bool) (c : ascii) (l t : text) :
  opens b c (hd_error (l ++ nl :: t)) = opens b c (hd_error l).
Proof. destruct l; reflexivity. Qed.

(** The scan of a line does not depend on what follows its newline. *)
Lemma scan_line_tail (l : text) :
  no_nl l = true ->
  forall b t, scan b (l ++ nl :: t) = scan b l ++ scan false (nl :: t).
Proof.
  induction l as [|c l' IH]; intros Hl b t.
  - cbn [app]. rewrite scan_nil. cbn [app]. destruct b; [|reflexivity].
    now apply scan_start.
  - rewrite no_nl_cons in Hl. apply andb_prop in Hl as [Hc Hl'].
    cbn [app]. rewrite (scan_cons b c (l' ++ nl :: t)), (scan_cons b c l'), opens_before_nl.
    destruct (opens b c (hd_error l')) as [g|] eqn:Ho.
    + assert (Hlen : length g <= length l').
      { destruct (opens_some _ _ _ _ Ho) as [(-> & _)|(-> & Hn & _)]; [cbn; lia|].
        destruct l'; [discriminate|cbn; lia]. }
      rewrite skipn_app. replace (length g - length l') with 0 by lia.
      cbn [skipn]. pose proof (no_nl_skipn (length g) l' Hl') as Hs.
      rewrite (to_eol_no_nl _ (nl :: t) Hs), (to_eol_none _ Hs).
      cbn [to_eol]. replace (Ascii.eqb nl nl) with true by reflexivity.
      rewrite scan_nil, <- app_assoc. reflexivity.
    + now rewrite (IH Hl').
Qed.

Lemma strip_comment_text_upto (n : nat) :
  forall s, length s <= n -> strip_comment s = strip_text s.
Proof.
  induction n as [|n IH]; intros s Hn.
  - destruct s; [reflexivity|simpl in Hn; lia].
  - destruct (to_eol_split s) as (p & Hp & Hnp).
    destruct (to_eol s) as [|c t] eqn:Et.
    + rewrite app_nil_r in Hp. subst p. symmetry. now apply strip_text_last.
    + assert (Ec : c = nl).
      { pose proof (to_eol_head s) as H. rewrite Et in H. cbn in H.
        now apply Ascii.eqb_eq in H. }
      subst c. rewrite Hp, (strip_text_line _ _ Hnp).
      rewrite (strip_comment_scan (p ++ nl :: t)), (scan_line_tail _ Hnp), scan_after_nl.
      rewrite <- !strip_comment_scan. f_equal. f_equal. apply IH.
      rewrite Hp, length_app in Hn. cbn [length] in Hn. lia.
Qed.

(** X5: [strip_comment] works line by line: on a text of several lines it
    returns what stripping each line by itself and joining the results
    gives. *)
Theorem strip_comment_line_by_line (s : text) :
  strip_comment s = concat (map strip_comment (lines_of s)).
Proof. apply (strip_comment_text_upto (length s)). lia. Qed.

Lemma scan_length_upto (n : nat) :
  forall (s : text) (b : bool), length s <= n -> length (scan b s) <= length s.
Proof.
  induction n as [|n IH]; intros s b Hn.
  - destruct s; [now rewrite scan_nil|simpl in Hn; lia].
  - destruct s as [|c t]; [now rewrite scan_nil|]. cbn [length] in *.
    rewrite scan_cons. destruct (opens b c (hd_error t)) as [g|] eqn:Ho.
    + assert (Hlen : length g <= length t).
      { destruct (opens_some _ _ _ _ Ho) as [(-> & _)|(-> & Hn' & _)]; [cbn; lia|].
        destruct t; [discriminate|cbn; lia]. }
      pose proof (to_eol_length (skipn (length g) t)) as Hr.
      rewrite length_skipn in Hr.
      rewrite length_app. cbn [length].
      pose proof (IH (to_eol (skipn (length g) t)) false ltac:(lia)). lia.
    + cbn [length]. pose proof (IH t false ltac:(lia)). lia.
Qed.

(** X6: [strip_comment] never makes a text longer. *)
Theorem strip_comment_not_longer (s : text) :
  length (strip_comment s) <= length s.
Proof. rewrite strip_comment_scan. apply (scan_length_upto (length s)). lia. Qed.

Lemma concat_lines_of (s : text) : concat (lines_of s) = s.
Proof.
  induction s as [|c s IH]; [reflexivity|]. cbn [lines_of].
  destruct (Ascii.eqb c nl); [cbn [concat app]; now rewrite IH|].
  destruct (lines_of s) as [|l ls].
  - cbn in IH. subst s. reflexivity.
  - cbn [concat] in *. cbn [app]. now rewrite IH.
Qed.

(** The lines of a text, glued together, are the text; no line is
    empty, and a line holds no newline before its last character. *)
Theorem lines_of_splits (s : text) :
  concat (lines_of s) = s /\
  Forall (fun l => l <> [] /\ no_nl (removelast l) = true) (lines_of s).
Proof.
  split; [apply concat_lines_of|].
  induction s as [|c s IH]; cbn [lines_of]; [constructor|].
  destruct (Ascii.eqb c nl) eqn:Ec.
  - constructor; [split; [discriminate|reflexivity]|exact IH].
  - destruct (lines_of s) as [|l ls].
    + constructor; [split; [discriminate|reflexivity]|constructor].
    + inversion IH as [|? ? [Hl Hn] Hls]; subst. constructor; [|exact Hls].
      split; [discriminate|].
      destruct l as [|d l]; [congruence|].
      change (removelast (c :: d :: l)) with (c :: removelast (d :: l)).
      rewrite no_nl_cons, Ec, Hn. reflexivity.
Qed.

End StripMore.

(** ** [target] and [os.path.basename] *)

Section Paths.

(** X7: what [target] returns is no link. *)
Theorem target_is_no_link (f : filesys) (fuel : nat) (p t : text) :
  target f fuel p = Some t -> islink f t = false.
Proof.
  revert p; induction fuel as [|n IH]; intros p; cbn [target]; [discriminate|].
  destruct (islink f p) eqn:E; [apply IH|].
  now intros [= <-].
Qed.

Lemma target_is_no_link_witness : islink chained_fs (txt "c.tex") = false.
Proof. apply (target_is_no_link chained_fs 3 (txt "a.tex")). reflexivity. Defined.

(** Once [target] has its answer, more links allowed change nothing. *)
Theorem target_more_fuel (f : filesys) (n m : nat) (p t : text) :
  target f n p = Some t -> n <= m -> target f m p = Some t.
Proof.
  revert m p; induction n as [|n IH]; intros m p; cbn [target]; [discriminate|].
  intros H Hle. destruct m as [|m]; [lia|]. cbn [target].
  destruct (islink f p); [apply IH; [exact H|lia]|exact H].
Qed.

Lemma target_more_fuel_witness :
  target chained_fs 40 (txt "a.tex") = Some (txt "c.tex").
Proof. apply (target_more_fuel chained_fs 3 40); [reflexivity|lia]. Defined.

(** X8: [target] has no guard against cycles: on a link to itself it finds
    no answer, however many links it may follow. *)
Theorem target_self_link (f : filesys) (fuel : nat) (p : text) :
  islink f p = true -> readlink f p = p -> target f fuel p = None.
Proof.
  intros Hl Hr. induction fuel as [|n IH]; cbn [target]; [reflexivity|].
  now rewrite Hl, Hr.
Qed.

Lemma target_self_link_witness :
  target (looping_fs (txt "fig.pdf")) 1000 (txt "fig.pdf") = None.
Proof. apply target_self_link; reflexivity. Defined.

Lemma basename_plain (n : text) :
  existsb (Ascii.eqb slash) n = false -> basename n = n.
Proof. destruct n as [|c n]; [reflexivity|]. cbn [basename]. now intros ->. Qed.

Lemma basename_no_slash (p : text) : existsb (Ascii.eqb slash) (basename p) = false.
Proof.
  induction p as [|c p IH]; [reflexivity|]. cbn [basename].
  destruct (existsb (Ascii.eqb slash) (c :: p)) eqn:E; [exact IH|exact E].
Qed.

(** The base name of a directory, a slash and a name without slash is
    the name. *)
Theorem basename_of_join (d n : text) :
  existsb (Ascii.eqb slash) n = false -> basename (d ++ slash :: n) = n.
Proof.
  intros Hn. induction d as [|c d IH].
  - cbn [app basename existsb]. replace (Ascii.eqb slash slash) with true by reflexivity.
    cbn [orb]. now apply basename_plain.
  - cbn [app basename].
    assert (E : existsb (Ascii.eqb slash) (c :: d ++ slash :: n) = true).
    { cbn [existsb]. rewrite existsb_app. cbn [existsb].
      replace (Ascii.eqb slash slash) with true by reflexivity.
      cbn [orb]. now rewrite !orb_true_r. }
    now rewrite E.
Qed.

Lemma basename_of_join_witness :
  basename (txt "/usr/share/texmf/tex/latex/biblatex" ++ slash :: txt "biblatex.sty")
  = txt "biblatex.sty".
Proof. apply basename_of_join. reflexivity. Defined.

(** X9: an absolute dependency, when it is archived, is archived under a
    name without any slash. *)
Theorem absolute_entries_flat (c : config) (w : world) (line : text) (evs : list event) :
  startswith (dep_of_line line) [slash] = true ->
  on_line c w line = Emit evs ->
  forallb flat evs = true.
Proof.
  intros Habs. unfold on_line, classify, add_resolved. rewrite Habs.
  destruct (search _ _); [|now intros [= <-]].
  destruct (target _ _ _); [|discriminate].
  intros [= <-]. cbn [forallb flat arcname_of].
  now rewrite basename_no_slash.
Qed.

Lemma absolute_entries_flat_witness :
  forallb flat [Add (txt "/usr/share/texmf/tex/latex/biblatex/biblatex.sty")
                    (txt "biblatex.sty")] = true.
Proof.
  apply (absolute_entries_flat default_config (sample_world 0)
           (txt "    /usr/share/texmf/tex/latex/biblatex/biblatex.sty\" ++ [nl]));
    reflexivity.
Defined.

End Paths.

(** ** The path on a dependency line *)

Section DepOfLine.

Lemma lstrip_spaces (ws s : text) :
  forallb isspace ws = true -> lstrip (ws ++ s) = lstrip s.
Proof.
  induction ws as [|c ws IH]; [reflexivity|]. cbn [forallb]. intros H.
  apply andb_prop in H as [Hc Hws]. cbn [app lstrip]. rewrite Hc. auto.
Qed.

Lemma lstrip_all_spaces (ws : text) : forallb isspace ws = true -> lstrip ws = [].
Proof. intros H. rewrite <- (app_nil_r ws). now rewrite lstrip_spaces. Qed.

Lemma lstrip_fixed (s : text) : leading_space s = false -> lstrip s = s.
Proof. destruct s as [|c s]; [reflexivity|]. cbn. now intros ->. Qed.

Lemma leading_space_app (s t : text) :
  s <> [] -> leading_space (s ++ t) = leading_space s.
Proof. destruct s; [congruence|reflexivity]. Qed.

(** White space around a text that neither starts nor ends with white space
    is what [strip] removes. *)
Lemma strip_padded (ws path ws' : text) :
  forallb isspace ws = true -> forallb isspace ws' = true ->
  leading_space path = false -> leading_space (rev path) = false ->
  strip (ws ++ path ++ ws') = path.
Proof.
  intros Hws Hws' Hl Hr. unfold strip, rstrip. rewrite (lstrip_spaces _ _ Hws).
  destruct path as [|c p].
  - cbn [app]. now rewrite (lstrip_all_spaces _ Hws').
  - rewrite (lstrip_fixed ((c :: p) ++ ws'))
      by (rewrite leading_space_app; [exact Hl|discriminate]).
    rewrite rev_app_distr, lstrip_spaces.
    + rewrite (lstrip_fixed _ Hr). apply rev_involutive.
    + rewrite forallb_forall in *. intros x Hx. apply Hws'. now apply in_rev.
Qed.

Lemma drop_last_one (s : text) (c : ascii) : drop_last 1 (s ++ [c]) = s.
Proof.
  unfold drop_last. rewrite length_app. cbn [length].
  replace (length s + 1 - 1) with (length s) by lia.
  rewrite firstn_app, Nat.sub_diag, firstn_all. cbn [firstn]. apply app_nil_r.
Qed.

(** X10: on a line made of indentation, a path that does not start with
    white space, the continuation backslash and the newline, the path read is
    that path. *)
Theorem dep_of_continued_line (ws path : text) :
  forallb isspace ws = true -> leading_space path = false ->
  dep_of_line (ws ++ path ++ [backslash; nl]) = path.
Proof.
  intros Hws Hl. unfold dep_of_line.
  assert (E : strip (ws ++ path ++ [backslash; nl]) = path ++ [backslash]).
  { change (path ++ [backslash; nl]) with (path ++ [backslash] ++ [nl]).
    rewrite (app_assoc path). apply strip_padded; try assumption; try reflexivity.
    - destruct path; [reflexivity|]. rewrite leading_space_app; [exact Hl|discriminate].
    - now rewrite rev_app_distr. }
  rewrite E.
  assert (Hend : endswith (path ++ [backslash]) [backslash] = true).
  { apply endswith_spec. now exists path. }
  rewrite Hend. apply drop_last_one.
Qed.

Lemma dep_of_continued_line_witness :
  dep_of_line (txt "    figures/plot.eps" ++ [backslash; nl]) = txt "figures/plot.eps".
Proof.
  apply (dep_of_continued_line (txt "    ") (txt "figures/plot.eps")); reflexivity.
Defined.

(** X11: on the last line of a block, made of indentation, a path and the
    newline, the path read is that path, provided it neither starts nor ends
    with white space and does not end in a backslash. *)
Theorem dep_of_last_line (ws path : text) :
  forallb isspace ws = true ->
  leading_space path = false -> leading_space (rev path) = false ->
  endswith path [backslash] = false ->
  dep_of_line (ws ++ path ++ [nl]) = path.
Proof.
  intros Hws Hl Hr Hend. unfold dep_of_line.
  rewrite (strip_padded ws path [nl] Hws eq_refl Hl Hr). now rewrite Hend.
Qed.

Lemma dep_of_last_line_witness :
  dep_of_line (txt "    refs.bib" ++ [nl]) = txt "refs.bib".
Proof. apply (dep_of_last_line (txt "    ") (txt "refs.bib")); reflexivity. Defined.

End DepOfLine.

(** ** The package pattern never misses a package directory *)

Section PackageComplete.

Lemma startswith_spec (s a : text) :
  startswith s a = true <-> exists v, s = a ++ v.
Proof.
  revert s; induction a as [|c a IH]; intros s.
  - destruct s; split; try reflexivity; intros _; eexists; reflexivity.
  - destruct s as [|x s]; cbn [startswith].
    + split; [discriminate|]. intros (v & H). discriminate.
    + rewrite andb_true_iff, Ascii.eqb_eq, IH. split.
      * intros (-> & v & ->). now exists v.
      * intros (v & [= -> ->]). split; [reflexivity|now exists v].
Qed.

Lemma contains_spec (s a : text) :
  contains s a = true <-> exists u v, s = u ++ a ++ v.
Proof.
  induction s as [|x s IH]; cbn [contains].
  - rewrite orb_false_r, startswith_spec. split.
    + intros (v & H). now exists [], v.
    + intros (u & v & H). destruct u; [now exists v|discriminate].
  - rewrite orb_true_iff, startswith_spec, IH. split.
    + intros [(v & H)|(u & v & H)]; [now exists [], v|].
      exists (x :: u), v. cbn [app]. now rewrite H.
    + intros (u & v & H). destruct u as [|y u]; [left; now exists v|].
      right. injection H as -> ->. now exists u, v.
Qed.

Lemma contains_infix (s x b y : text) :
  contains s (x ++ b ++ y) = true -> contains s b = true.
Proof.
  rewrite !contains_spec. intros (u & v & ->). exists (u ++ x), (y ++ v).
  now rewrite <- !app_assoc.
Qed.

(** After the opening slash, each package gives a branch: its name, with the
    closing slash for the last one. *)
Lemma tail_branches (pkgs : list text) (p : text) :
  In p pkgs ->
  exists b, In b (branches (join_bar (map escape pkgs) ++ [TLit slash])) /\
            (b = p \/ b = p ++ [slash]).
Proof.
  induction pkgs as [|q pkgs IH]; intros Hin; [destruct Hin|].
  destruct pkgs as [|r rest].
  - destruct Hin as [->|[]]. cbn [map join_bar]. unfold escape.
    change [TLit slash] with (map TLit [slash]). rewrite <- map_app, branches_last.
    exists (p ++ [slash]). split; [now left|now right].
  - change (join_bar (map escape (q :: r :: rest)))
      with (escape q ++ TBar :: join_bar (map escape (r :: rest))).
    unfold escape at 1. rewrite <- app_assoc. cbn [app]. rewrite branches_lits.
    destruct Hin as [->|Hin].
    + exists p. split; [now left|now left].
    + destruct (IH Hin) as (b & Hb & Hor). exists b. split; [now right|exact Hor].
Qed.

Lemma head_branches (c : ascii) (ts : list tok) (b : text) :
  In b (branches ts) ->
  In (c :: b) (branches (TLit c :: ts)) \/ In b (branches (TLit c :: ts)).
Proof.
  cbn [branches]. destruct (branches ts) as [|a rest]; [intros []|].
  intros [->|H]; [left; now left|right; now right].
Qed.

(** X12: whatever the list of packages, a path that holds [/<pkg>/] for one
    of them passes the package pattern. *)
Theorem package_filter_complete (pkgs : list text) (p dep : text) :
  In p pkgs ->
  contains dep (slash :: p ++ [slash]) = true ->
  search (pkg_re pkgs) dep = true.
Proof.
  intros Hin Hc. unfold pkg_re. rewrite search_compile. apply existsb_exists.
  destruct (tail_branches pkgs p Hin) as (b & Hb & Hor).
  unfold pkg_source.
  destruct (head_branches slash _ b Hb) as [H|H].
  - exists (slash :: b). split; [exact H|].
    destruct Hor as [->| ->].
    + apply (contains_infix dep [] (slash :: p) [slash]). exact Hc.
    + apply (contains_infix dep [] (slash :: p ++ [slash]) []).
      cbn [app]. now rewrite app_nil_r.
  - exists b. split; [exact H|].
    destruct Hor as [->| ->].
    + apply (contains_infix dep [slash] p [slash]). exact Hc.
    + apply (contains_infix dep [slash] (p ++ [slash]) []).
      cbn [app]. now rewrite app_nil_r.
Qed.

Lemma package_filter_complete_witness :
  search (pkg_re [txt "biblatex"; txt "natbib"; txt "revtex"])
         (txt "/usr/share/texmf/tex/latex/natbib/natbib.sty") = true.
Proof.
  apply (package_filter_complete _ (txt "natbib")).
  - right; left; reflexivity.
  - reflexivity.
Defined.

End PackageComplete.

(** ** What the classifier adds for a relative path *)

Section RelativePaths.

Lemma not_bib_of_tex (dep : text) :
  endswith dep (txt ".tex") = true -> endswith dep (txt ".bib") = false.
Proof. apply endswith_other; [reflexivity|discriminate]. Qed.

Lemma not_eps_of_tex (dep : text) :
  endswith dep (txt ".tex") = true -> endswith dep (txt ".eps") = false.
Proof. apply endswith_other; [reflexivity|discriminate]. Qed.

Lemma not_bib_of_pdf (dep : text) :
  endswith dep (txt ".pdf") = true -> endswith dep (txt ".bib") = false.
Proof. apply endswith_other; [reflexivity|discriminate]. Qed.

Lemma not_pdf_of_tex (dep : text) :
  endswith dep (txt ".tex") = true -> endswith dep (txt "-eps-converted-to.pdf") = false.
Proof.
  intros H. destruct (endswith dep (txt "-eps-converted-to.pdf")) eqn:E; [|reflexivity].
  apply (endswith_app _ (txt "-eps-converted-to")) in E.
  now rewrite (not_tex_of_pdf _ E) in H.
Qed.

(** X13: for a relative dependency, no archive entry is named like an
    [.eps] or a [.bib] file. *)
Theorem relative_entries_no_raw_source (c : config) (w : world) (line : text)
        (evs : list event) :
  startswith (dep_of_line line) [slash] = false ->
  on_line c w line = Emit evs ->
  forallb no_raw_source evs = true.
Proof.
  intros Hrel. unfold on_line, classify, add_resolved. rewrite Hrel.
  set (dep := dep_of_line line).
  destruct (endswith dep (txt ".tex")) eqn:Etex.
  - destruct (strip_comments c); cbn [andb].
    + destruct (read_text _ _); [|discriminate]. intros [= <-].
      cbn [forallb]. unfold no_raw_source, named_like. cbn [arcname_of].
      now rewrite (not_eps_of_tex _ Etex), (not_bib_of_tex _ Etex).
    + rewrite (not_eps_of_tex _ Etex), (not_pdf_of_tex _ Etex), (not_bib_of_tex _ Etex).
      destruct (target _ _ _); [|discriminate]. intros [= <-].
      cbn [forallb]. unfold no_raw_source, named_like. cbn [arcname_of].
      now rewrite (not_eps_of_tex _ Etex), (not_bib_of_tex _ Etex).
  - cbn [andb]. destruct (endswith dep (txt ".eps")) eqn:Eeps.
    + destruct (path_exists _ _); [|discriminate].
      destruct (target _ _ _) as [t|]; [|discriminate]. intros H.
      assert (E : evs = [Add t (eps_arcname dep)]) by (unfold eps_arcname; congruence).
      assert (Hpdf : endswith (eps_arcname dep) (txt ".pdf") = true).
      { apply endswith_spec. now exists (drop_last 4 dep). }
      rewrite E. cbn [forallb]. unfold no_raw_source, named_like. cbn [arcname_of].
      now rewrite (not_eps_of_pdf _ Hpdf), (not_bib_of_pdf _ Hpdf).
    + destruct (endswith dep (txt "-eps-converted-to.pdf")); [now intros [= <-]|].
      destruct (endswith dep (txt ".bib")) eqn:Ebib; [now intros [= <-]|].
      destruct (target _ _ _); [|discriminate]. intros [= <-].
      cbn [forallb]. unfold no_raw_source, named_like. cbn [arcname_of].
      now rewrite Eeps, Ebib.
Qed.

Lemma relative_entries_no_raw_source_witness :
  forallb no_raw_source
          [Add (txt "figures/plot-eps-converted-to.pdf") (txt "figures/plot.pdf")] = true.
Proof.
  apply (relative_entries_no_raw_source default_config (sample_world 0)
           (txt "    figures/plot.eps\" ++ [nl])); reflexivity.
Defined.

(** X14: with comment stripping switched off, a relative [.tex] dependency
    whose links resolve to [t] is added as it is, under its own path. *)
Theorem tex_verbatim_without_stripping (c : config) (w : world) (line t : text) :
  strip_comments c = false ->
  startswith (dep_of_line line) [slash] = false ->
  endswith (dep_of_line line) (txt ".tex") = true ->
  target (fs w) (link_fuel w) (dep_of_line line) = Some t ->
  on_line c w line = Emit [Add t (dep_of_line line)].
Proof.
  intros Hoff Hrel Htex Ht. unfold on_line, classify, add_resolved.
  rewrite Hrel, Htex, Hoff. cbn [andb].
  now rewrite (not_eps_of_tex _ Htex), (not_pdf_of_tex _ Htex), (not_bib_of_tex _ Htex), Ht.
Qed.

Lemma tex_verbatim_without_stripping_witness :
  on_line {| base_name := txt "main"; packages := [txt "biblatex"];
             strip_comments := false |}
          (sample_world 0) (txt "    main.tex\" ++ [nl])
  = Emit [Add (txt "main.tex") (txt "main.tex")].
Proof.
  apply (tex_verbatim_without_stripping _ (sample_world 0) (txt "    main.tex\" ++ [nl]));
    reflexivity.
Defined.

End RelativePaths.

(** ** Runs that fail *)

Section FailingRuns.

Lemma read_until_app (check : text -> bool) (pre rest : list text) :
  Forall (fun x => x <> []) pre ->
  (forall x, In x pre -> check x = false) ->
  read_until check (pre ++ rest) = yields_then pre (read_until check rest).
Proof.
  intros Hne Hpre. induction pre as [|x pre IH]; [reflexivity|].
  cbn [app read_until yields_then fold_right].
  inversion Hne as [|? ? Hx Hne']; subst.
  rewrite (text_eqb_nil _ Hx), (Hpre x (or_introl eq_refl)).
  f_equal. apply IH; [exact Hne'|]. intros y Hy. apply Hpre. now right.
Qed.

Lemma not_end_line (base x : text) :
  x <> end_line base -> text_eqb (end_line base) x = false.
Proof.
  intros H. destruct (text_eqb (end_line base) x) eqn:E; [|reflexivity].
  apply text_eqb_eq in E. congruence.
Qed.

(** X15: for a base name without pattern metacharacters, when the line
    after the start marker is not the rule header (or the output ends
    there), the run fails with an assertion error before any call on the
    archive. *)
Theorem collect_bad_header (c : config) (w : world) (pre : list text) (start : text)
        (rest : list text) :
  plain_name (base_name c) = true ->
  lines_of (stdout w) = pre ++ start :: rest ->
  (forall l, In l pre -> matches (start_re (base_name c)) l = false) ->
  matches (start_re (base_name c)) start = true ->
  strip (fst (next_line rest)) <> header_line (base_name c) ->
  collect c w = ([], Raised AssertionError).
Proof.
  intros _ Hout Hpre Hstart Hhead.
  pose proof (lines_of_nonempty (stdout w)) as Hne. rewrite Hout in Hne.
  apply Forall_app in Hne as [Hne_pre Hne]. inversion Hne as [|? ? Hne_start _]; subst.
  unfold collect. rewrite Hout.
  rewrite (read_until_found _ pre start _ Hne_pre Hpre Hne_start Hstart).
  rewrite consume_yields. cbn [consume].
  destruct (next_line rest) as [header unread']. cbn [fst] in Hhead.
  destruct (text_eqb (strip header) (header_line (base_name c))) eqn:E; [|reflexivity].
  apply text_eqb_eq in E. contradiction.
Qed.

Lemma collect_bad_header_witness :
  collect default_config (world_of headless_stdout 0 0) = ([], Raised AssertionError).
Proof.
  apply (collect_bad_header default_config (world_of headless_stdout 0 0)
           sample_preamble sample_start []).
  - reflexivity.
  - vm_compute. reflexivity.
  - sample_lines.
  - vm_compute. reflexivity.
  - discriminate.
Defined.

(** X16: for a base name without pattern metacharacters, when the output
    holds the start marker and the rule header, the run stops at the first
    dependency line the classifier fails on, with the classifier's error: the
    calls made are those of the lines before it, all classified without
    error; the lines after it are not looked at, and neither the clean-up nor
    the [.bbl] call is made. *)
Theorem collect_stops_at_failure (c : config) (w : world) (pre : list text)
        (start header : text) (deps : list text) (bad : text) (rest : list text)
        (evss : list (list event)) (o : outcome) :
  plain_name (base_name c) = true ->
  lines_of (stdout w) = pre ++ start :: header :: deps ++ bad :: rest ->
  (forall l, In l pre -> matches (start_re (base_name c)) l = false) ->
  matches (start_re (base_name c)) start = true ->
  strip header = header_line (base_name c) ->
  ~ In (end_line (base_name c)) deps ->
  Forall2 (fun line evs => on_line c w line = Emit evs) deps evss ->
  bad <> end_line (base_name c) ->
  on_line c w bad = Abort o ->
  collect c w = (concat evss, o).
Proof.
  intros _ Hout Hpre Hstart Hhead Hend Hdeps Hbad Ho.
  pose proof (lines_of_nonempty (stdout w)) as Hne. rewrite Hout in Hne.
  apply Forall_app in Hne as [Hne_pre Hne]. inversion Hne as [|? ? Hne_start Hne1]; subst.
  inversion Hne1 as [|? ? _ Hne2]; subst. apply Forall_app in Hne2 as [Hne_deps Hne3].
  inversion Hne3 as [|? ? Hne_bad _]; subst.
  unfold collect. rewrite Hout.
  rewrite (read_until_found _ pre start _ Hne_pre Hpre Hne_start Hstart).
  rewrite consume_yields. cbn [consume next_line].
  rewrite Hhead, text_eqb_refl, body_is_on_line.
  rewrite (read_until_app _ deps (bad :: rest) Hne_deps).
  - rewrite (for_each_yields _ _ _ _ Hdeps). cbn [read_until].
    rewrite (text_eqb_nil _ Hne_bad), (not_end_line _ _ Hbad).
    cbn [for_each]. now rewrite Ho.
  - intros x Hx. apply not_end_line. intros ->. contradiction.
Qed.

Lemma collect_stops_at_failure_witness :
  collect default_config (world_of broken_stdout 0 0)
  = (concat early_events, Raised AssertionError).
Proof.
  apply (collect_stops_at_failure default_config (world_of broken_stdout 0 0)
           sample_preamble sample_start sample_header early_deps missing_eps_line
           late_lines early_events).
  - reflexivity.
  - vm_compute. reflexivity.
  - sample_lines.
  - vm_compute. reflexivity.
  - vm_compute. reflexivity.
  - sample_no_end_line.
  - sample_classified.
  - discriminate.
  - vm_compute. reflexivity.
Defined.

(** X17: for a base name without pattern metacharacters, when the
    dependency block is read to its end marker with every dependency line
    classified without error, the build returns a non-zero code and the
    clean-up run returns a non-zero code too, the run makes the calls of the
    dependency lines, tries the clean-up, and ends with the error of
    [check_call], which carries the clean-up's return code; it does not exit
    with the build's return code. *)
Theorem collect_clean_fails (c : config) (w : world) (pre : list text)
        (start header : text) (deps post : list text) (evss : list (list event)) :
  plain_name (base_name c) = true ->
  lines_of (stdout w)
    = pre ++ start :: header :: deps ++ end_line (base_name c) :: post ->
  (forall l, In l pre -> matches (start_re (base_name c)) l = false) ->
  matches (start_re (base_name c)) start = true ->
  strip header = header_line (base_name c) ->
  ~ In (end_line (base_name c)) deps ->
  Forall2 (fun line evs => on_line c w line = Emit evs) deps evss ->
  returncode w <> 0%Z ->
  clean_returncode w <> 0%Z ->
  collect c w
  = (concat evss ++ [Clean], Raised (CalledProcessError (clean_returncode w))).
Proof.
  intros _ Hout Hpre Hstart Hhead Hend Hdeps Hrc Hclean.
  rewrite (collect_block c w pre start header deps post evss Hout Hpre Hstart Hhead Hend Hdeps).
  now apply failed_clean_raises.
Qed.

Lemma collect_clean_fails_witness :
  collect default_config (world_of sample_stdout 12 2)
  = (concat sample_events ++ [Clean], Raised (CalledProcessError 2)).
Proof.
  apply (collect_clean_fails default_config (world_of sample_stdout 12 2) sample_preamble
           sample_start sample_header sample_deps sample_trailer sample_events).
  - reflexivity.
  - vm_compute. reflexivity.
  - sample_lines.
  - vm_compute. reflexivity.
  - vm_compute. reflexivity.
  - sample_no_end_line.
  - sample_classified.
  - discriminate.
  - discriminate.
Defined.

Lemma collect_without_end_witness :
  collect default_config (world_of truncated_stdout 0 0)
  = (concat sample_events, Raised UnexpectedEOF).
Proof.
  apply (collect_without_end default_config (world_of truncated_stdout 0 0)
           sample_preamble sample_start sample_header sample_deps sample_events).
  - reflexivity.
  - vm_compute. reflexivity.
  - sample_lines.
  - vm_compute. reflexivity.
  - vm_compute. reflexivity.
  - sample_no_end_line.
  - sample_classified.
Defined.

(** X19: [read_until] yields the lines of the stream in order from the
    first one on, none of them passing the check; when it returns, the line
    after the yielded ones passes the check, and what follows that line is
    left unread. *)
Theorem read_until_stops_at_first (check : text -> bool) (pending : list text) :
  forallb (fun l => negb (check l)) (yielded (read_until check pending)) = true /\
  (exists rest, pending = yielded (read_until check pending) ++ rest) /\
  (forall unread, consume (read_until check pending) = inr unread ->
     exists m, check m = true /\
               pending = yielded (read_until check pending) ++ m :: unread).
Proof.
  induction pending as [|x pending (IH1 & (rest & IH2) & IH3)]; cbn [read_until].
  - repeat split; [now exists []|discriminate].
  - destruct (text_eqb x []).
    + repeat split; [now exists (x :: pending)|discriminate].
    + destruct (check x) eqn:Ex.
      * repeat split; [now exists (x :: pending)|].
        cbn [consume yielded app]. intros unread [= <-]. now exists x.
      * cbn [yielded forallb consume]. rewrite Ex, IH1. repeat split.
        -- exists rest. cbn [app]. now rewrite <- IH2.
        -- intros unread Hu. destruct (IH3 _ Hu) as (m & Hm & E).
           exists m. split; [exact Hm|]. cbn [app]. now rewrite <- E.
Qed.

End FailingRuns.

(** ** The command line *)

Section CommandLine.

Lemma prepare_named (a : args) (found : list text) :
  prepare a found =
  match (match arg_base_name a with
         | Some (c :: s) => inr (c :: s)
         | _ => guess found
         end) with
  | inl u => Usage u
  | inr name => checked a name
  end.
Proof. reflexivity. Qed.

Lemma prepare_given (a : args) (name : text) (found : list text) :
  name <> [] -> arg_base_name a = Some name -> prepare a found = checked a name.
Proof.
  intros Hne E. rewrite prepare_named, E. destruct name; [congruence|reflexivity].
Qed.

Lemma checked_with_base_name (a : args) (name n : text) :
  checked (with_base_name a name) n = checked a n.
Proof. reflexivity. Qed.

(** Passing a name, empty or not, that the guess would give is the same as
    passing none. *)
Lemma prepare_guessed (a : args) (found : list text) (x : text) :
  arg_base_name a = None -> guess found = inr x ->
  prepare a found = prepare (with_base_name a x) found.
Proof.
  intros Hnone Hg. rewrite !prepare_named, Hnone. cbn [with_base_name arg_base_name].
  rewrite Hg. destruct x; reflexivity.
Qed.

Lemma drop_last_suffix (n suf : text) : drop_last (length suf) (n ++ suf) = n.
Proof.
  unfold drop_last. rewrite length_app.
  replace (length n + length suf - length suf) with (length n) by lia.
  rewrite firstn_app, Nat.sub_diag, firstn_all. cbn [firstn]. apply app_nil_r.
Qed.

Lemma endswith_tex_has_dot (n : text) :
  endswith n (txt ".tex") = true -> existsb (Ascii.eqb "."%char) n = true.
Proof.
  intros H. apply endswith_spec in H as (q & ->).
  rewrite existsb_app. cbn. apply orb_true_r.
Qed.

Lemma mem_In (x : text) (l : list text) : mem x l = true <-> In x l.
Proof.
  unfold mem. rewrite existsb_exists. split.
  - intros (y & Hy & E). apply text_eqb_eq in E. now subst.
  - intros H. exists x. split; [exact H|apply text_eqb_refl].
Qed.

Lemma two_elements (A : Type) (x y : A) (l : list A) :
  In x l -> In y l -> x <> y -> 1 < length l.
Proof.
  destruct l as [|a [|b l]]; cbn; try tauto; try lia.
  intros [->|[]] [->|[]] H. congruence.
Qed.

(** X20: the base name [main] hands to [collect] holds neither a dot nor a
    slash. *)
Theorem prepare_base_name_plain (a : args) (found : list text) (c : config) (dest : text) :
  prepare a found = Ready c dest ->
  existsb (Ascii.eqb "."%char) (base_name c) = false /\
  existsb (Ascii.eqb slash) (base_name c) = false.
Proof.
  rewrite prepare_named.
  destruct (match arg_base_name a with Some (_ :: _) => _ | _ => _ end) as [u|name];
    [discriminate|].
  unfold checked.
  destruct (existsb (Ascii.eqb "."%char) _) eqn:Edot; [discriminate|].
  destruct (existsb (Ascii.eqb slash) _) eqn:Eslash; [discriminate|].
  destruct (if arg_skip_biblatex a then _ else _); [|discriminate].
  intros [= <- _]. cbn [base_name]. now split.
Qed.

Lemma prepare_base_name_plain_witness :
  existsb (Ascii.eqb "."%char) (txt "paper") = false /\
  existsb (Ascii.eqb slash) (txt "paper") = false.
Proof.
  apply (prepare_base_name_plain (named_args (txt "paper.tex")) []
           {| base_name := txt "paper"; packages := [txt "biblatex"];
              strip_comments := true |} (txt "arxiv.tar.gz")).
  reflexivity.
Defined.

(** X21: a base name given with the extension [.tex] is treated as the name
    without it, for every non-empty name without a dot. *)
Theorem prepare_tex_suffix (a : args) (name : text) (found : list text) :
  name <> [] ->
  existsb (Ascii.eqb "."%char) name = false ->
  prepare (with_base_name a (name ++ txt ".tex")) found
  = prepare (with_base_name a name) found.
Proof.
  intros Hne Hdot.
  rewrite (prepare_given _ (name ++ txt ".tex") found), (prepare_given _ name found);
    try reflexivity; try exact Hne; [|destruct name; [congruence|discriminate]].
  rewrite !checked_with_base_name. unfold checked.
  assert (E1 : endswith (name ++ txt ".tex") (txt ".tex") = true).
  { apply endswith_spec. now exists name. }
  assert (E2 : endswith name (txt ".tex") = false).
  { destruct (endswith name (txt ".tex")) eqn:E; [|reflexivity].
    apply endswith_tex_has_dot in E. congruence. }
  rewrite E1, E2.
  change (drop_last 4 (name ++ txt ".tex"))
    with (drop_last (length (txt ".tex")) (name ++ txt ".tex")).
  now rewrite drop_last_suffix.
Qed.

Lemma prepare_tex_suffix_witness :
  prepare (with_base_name bare_args (txt "thesis" ++ txt ".tex")) []
  = prepare (with_base_name bare_args (txt "thesis")) [].
Proof. apply prepare_tex_suffix; [discriminate|reflexivity]. Defined.

(** X22: with no base name given and one [.tex] file found, [main] goes on
    as if the file's name without its last four characters had been given. *)
Theorem prepare_single_candidate (a : args) (f : text) :
  arg_base_name a = None ->
  prepare a [f] = prepare (with_base_name a (drop_last 4 f)) [f].
Proof. intros Hnone. now apply prepare_guessed. Qed.

Lemma prepare_single_candidate_witness :
  prepare bare_args [txt "paper.tex"]
  = prepare (with_base_name bare_args (drop_last 4 (txt "paper.tex"))) [txt "paper.tex"].
Proof. apply prepare_single_candidate. reflexivity. Defined.

(** X23: with no base name given and several [.tex] files found, among them
    [main.tex] and none that gives the candidate [paper], [main] goes on as
    if [main] had been given, whatever the other files and their order. *)
Theorem prepare_prefers_main (a : args) (found : list text) :
  arg_base_name a = None ->
  1 < length found ->
  In (txt "main.tex") found ->
  (forall f, In f found -> drop_last 4 f <> txt "paper") ->
  prepare a found = prepare (with_base_name a (txt "main")) found.
Proof.
  intros Hnone Hlen Hmain Hpaper. apply prepare_guessed; [exact Hnone|].
  unfold guess. rewrite length_map.
  apply Nat.ltb_lt in Hlen. rewrite Hlen. unfold main_or_paper. cbn [filter].
  assert (E1 : mem (txt "main") (map (drop_last 4) found) = true).
  { apply mem_In. apply in_map_iff. now exists (txt "main.tex"). }
  assert (E2 : mem (txt "paper") (map (drop_last 4) found) = false).
  { destruct (mem (txt "paper") (map (drop_last 4) found)) eqn:E; [|reflexivity].
    apply mem_In, in_map_iff in E as (f & Hf & Hin). now destruct (Hpaper f Hin). }
  now rewrite E1, E2.
Qed.

Lemma prepare_prefers_main_witness :
  prepare bare_args [txt "appendix.tex"; txt "main.tex"; txt "macros.tex"]
  = prepare (with_base_name bare_args (txt "main"))
            [txt "appendix.tex"; txt "main.tex"; txt "macros.tex"].
Proof.
  apply prepare_prefers_main; [reflexivity|cbn; lia|right; left; reflexivity|].
  intros f H. vm_compute in H.
  repeat (destruct H as [H|H]; [subst f; discriminate|]). destruct H.
Defined.

(** X24: with no base name given, [main] gives up with a usage error when
    both [main.tex] and [paper.tex] are found. *)
Theorem prepare_cannot_choose (a : args) (found : list text) :
  arg_base_name a = None ->
  In (txt "main.tex") found -> In (txt "paper.tex") found ->
  prepare a found = Usage CannotGuess.
Proof.
  intros Hnone Hmain Hpaper. rewrite prepare_named, Hnone. unfold guess.
  rewrite length_map.
  assert (Hlen : (1 <? length found) = true).
  { apply Nat.ltb_lt. apply (two_elements _ _ _ _ Hmain Hpaper). discriminate. }
  rewrite Hlen. unfold main_or_paper. cbn [filter].
  assert (E1 : mem (txt "main") (map (drop_last 4) found) = true).
  { apply mem_In. apply in_map_iff. now exists (txt "main.tex"). }
  assert (E2 : mem (txt "paper") (map (drop_last 4) found) = true).
  { apply mem_In. apply in_map_iff. now exists (txt "paper.tex"). }
  now rewrite E1, E2.
Qed.

Lemma prepare_cannot_choose_witness :
  prepare bare_args [txt "paper.tex"; txt "main.tex"] = Usage CannotGuess.
Proof.
  apply prepare_cannot_choose; [reflexivity|right; left; reflexivity|left; reflexivity].
Defined.

Lemma pkg_re_none (dep : text) : search (pkg_re []) dep = contains dep (txt "//").
Proof. unfold pkg_re. rewrite search_compile. cbn. apply orb_false_r. Qed.

(** X25: [--skip-biblatex] takes the default package off the front of the
    list and leaves the packages given with [-p]; when none was given, the
    package pattern is [//], and an absolute path with a double slash still
    passes it. *)
Theorem skip_biblatex_leaves_the_rest (a : args) (found : list text) (extra : list text)
        (c : config) (dest : text) :
  arg_skip_biblatex a = true ->
  arg_packages a = txt "biblatex" :: extra ->
  prepare a found = Ready c dest ->
  packages c = extra /\
  (extra = [] -> forall dep, search (pkg_re (packages c)) dep = contains dep (txt "//")).
Proof.
  intros Hskip Hpk. rewrite prepare_named.
  destruct (match arg_base_name a with Some (_ :: _) => _ | _ => _ end) as [u|name];
    [discriminate|].
  unfold checked. rewrite Hskip, Hpk.
  destruct (existsb (Ascii.eqb "."%char) _); [discriminate|].
  destruct (existsb (Ascii.eqb slash) _); [discriminate|].
  cbn [remove_first]. rewrite text_eqb_refl. intros [= <- _]. cbn [packages].
  split; [reflexivity|]. intros -> dep. apply pkg_re_none.
Qed.

Lemma skip_biblatex_leaves_the_rest_witness :
  search (pkg_re []) (txt "/usr/share//texmf/tex/latex/base/article.cls") = true.
Proof.
  refine (eq_trans
            (proj2 (skip_biblatex_leaves_the_rest skipping_args [] []
                      {| base_name := txt "main"; packages := [];
                         strip_comments := true |} (txt "arxiv.tar.gz")
                      eq_refl eq_refl eq_refl) eq_refl _) _).
  reflexivity.
Defined.

End CommandLine.

(** ** The stripped copy of a source file *)

Section StrippedEntry.

(** X26: with comment stripping on, a relative [.tex] dependency that can
    be read is written as one entry under its own path, whose bytes are the
    UTF-8 encoding of [strip_comment] applied to the whole content and whose
    size is their number; when the file cannot be opened the run fails with
    the error of the open and adds nothing. *)
Theorem tex_stripped_entry (c : config) (w : world) (line : text) :
  strip_comments c = true ->
  startswith (dep_of_line line) [slash] = false ->
  endswith (dep_of_line line) (txt ".tex") = true ->
  (forall content, read_text (fs w) (dep_of_line line) = Some content ->
     on_line c w line
     = Emit [AddFile (dep_of_line line)
                     (length (encode_utf8 (strip_comment content)))
                     (encode_utf8 (strip_comment content))]) /\
  (read_text (fs w) (dep_of_line line) = None ->
     on_line c w line = Abort (Raised IOError)).
Proof.
  intros Hon Hrel Htex. unfold on_line, classify. rewrite Hrel, Htex, Hon. cbn [andb].
  split.
  - intros content ->. rewrite stripped_bytes_encode.
    now rewrite <- (strip_comment_text_upto (length content) content (le_n _)).
  - now intros ->.
Qed.

Lemma tex_stripped_entry_witness :
  on_line default_config (sample_world 0) (txt "    main.tex\" ++ [nl])
  = Emit [AddFile (txt "main.tex")
            (length (encode_utf8 (strip_comment
               (txt "a%b" ++ [nl] ++ txt "50\% x % y" ++ [nl] ++ txt "end"))))
            (encode_utf8 (strip_comment
               (txt "a%b" ++ [nl] ++ txt "50\% x % y" ++ [nl] ++ txt "end")))].
Proof.
  apply (proj1 (tex_stripped_entry default_config (sample_world 0)
                  (txt "    main.tex\" ++ [nl]) eq_refl eq_refl eq_refl)).
  reflexivity.
Defined.

End StrippedEntry.
